(** * Terraform entity and dependency-graph extractor

    Shallow embedding of [apps/hello-world/backend/parser.py]
    ([TerraformParser] and [parse_terraform]).

    - Python values produced by the HCL loader are [Value]; a Python dict is
      an association list in insertion order (keys unique).
    - Python exceptions are the [Raise] branch of the result type [Res].
    - Strings are Stdlib [string]: a Python str whose characters are all
      below U+0100 (one byte each); the character class \w of [re] is
      Python's Unicode one restricted to these characters.
    - [list(set(xs))] is an order that Python derives from string hashes;
      it is kept abstract as a parameter [py_set_list]. *)

From Stdlib Require Import String Ascii List Bool Arith Lia ZArith.
Import ListNotations.
Open Scope string_scope.
Open Scope list_scope.
Set Warnings "-register-all".

(** ** Values and exceptions *)

(** The loader ([hcl2.loads]) yields str, int/float, bool, None, dict, list. *)
Inductive Value : Type :=
| VStr (s : string)
| VNum (n : Z)
| VBool (b : bool)
| VNone
| VDict (kvs : list (string * Value))
| VList (items : list Value).

(** Exceptions that can leave the functions below. [LarkError] and
    [JSONDecodeError] are the two caught by [_parse_file]. [OSError]
    stands for all its subclasses (PermissionError, FileNotFoundError,
    IsADirectoryError, NotADirectoryError, FileExistsError). *)
Inductive Exc : Type :=
| LarkError
| JSONDecodeError
| OSError
| TypeError
| AttributeError
| UnicodeDecodeError
| KeyError.

Inductive Res (A : Type) : Type :=
| Ok (a : A)
| Raise (e : Exc).
Arguments Ok {A} a.
Arguments Raise {A} e.

Definition res_bind {A B} (m : Res A) (k : A -> Res B) : Res B :=
  match m with
  | Ok a => k a
  | Raise e => Raise e
  end.

Notation "'let*' x ':=' m 'in' k" := (res_bind m (fun x => k))
  (at level 200, x name, m at level 100, k at level 200).

(** [for x in v] on a Python value: a list yields its items, a dict its
    keys, a str its characters; anything else is not iterable. *)
Fixpoint str_chars (s : string) : list Value :=
  match s with
  | EmptyString => []
  | String c rest => VStr (String c EmptyString) :: str_chars rest
  end.

Definition py_iter (v : Value) : Res (list Value) :=
  match v with
  | VList items => Ok items
  | VDict kvs => Ok (map (fun kv => VStr (fst kv)) kvs)
  | VStr s => Ok (str_chars s)
  | _ => Raise TypeError
  end.

(** [v.items()]: only a dict has it. *)
Definition py_items (v : Value) : Res (list (string * Value)) :=
  match v with
  | VDict kvs => Ok kvs
  | _ => Raise AttributeError
  end.

(** [key in d] and [d[key]] on a dict. *)
Fixpoint dict_get {A} (key : string) (kvs : list (string * A)) : option A :=
  match kvs with
  | [] => None
  | (k, v) :: rest => if String.eqb k key then Some v else dict_get key rest
  end.

(** [d[key] = v]: overwrite in place (insertion position kept) or append. *)
Fixpoint dict_set {A} (key : string) (v : A) (kvs : list (string * A))
  : list (string * A) :=
  match kvs with
  | [] => [(key, v)]
  | (k, w) :: rest =>
      if String.eqb k key then (k, v) :: rest else (k, w) :: dict_set key v rest
  end.

(** [needle in hay] for two str: a substring test. *)
Fixpoint str_contains (needle hay : string) : bool :=
  String.prefix needle hay
  || match hay with
     | EmptyString => false
     | String _ rest => str_contains needle rest
     end.

(** ** Reference patterns ([_find_references]) *)

(** [re]'s \w on a str pattern (Unicode: [ch.isalnum()] or [_]), on the
    characters below U+0100: ASCII letters, digits and underscore, and the
    Latin-1 letters and numbers U+00AA, U+00B2, U+00B3, U+00B5, U+00B9,
    U+00BA, U+00BC-U+00BE, U+00C0-U+00D6, U+00D8-U+00F6, U+00F8-U+00FF. *)
Definition is_word (c : ascii) : bool :=
  let n := nat_of_ascii c in
  ((Nat.leb 48 n && Nat.leb n 57) || (Nat.leb 65 n && Nat.leb n 90)
   || (Nat.leb 97 n && Nat.leb n 122) || Nat.eqb n 95
   || Nat.eqb n 170 || Nat.eqb n 178 || Nat.eqb n 179 || Nat.eqb n 181
   || Nat.eqb n 185 || Nat.eqb n 186 || (Nat.leb 188 n && Nat.leb n 190)
   || (Nat.leb 192 n && Nat.leb n 214) || (Nat.leb 216 n && Nat.leb n 246)
   || Nat.leb 248 n)%nat.

(** Greedy [\w+]/[\w*]: the maximal run of word characters and the rest. *)
Fixpoint word_span (s : string) : string * string :=
  match s with
  | String c rest =>
      if is_word c then let (w, r) := word_span rest in (String c w, r)
      else (EmptyString, s)
  | EmptyString => (EmptyString, EmptyString)
  end.

(** [text.replace("${", "")]: left-to-right, non-overlapping. *)
Fixpoint remove_dollar_brace (s : string) : string :=
  match s with
  | String c rest =>
      if Ascii.eqb c "$" then
        match rest with
        | String d rest' =>
            if Ascii.eqb d "{" then remove_dollar_brace rest'
            else String c (remove_dollar_brace rest)
        | EmptyString => s
        end
      else String c (remove_dollar_brace rest)
  | EmptyString => EmptyString
  end.

(** [text.replace("}", "")]. *)
Fixpoint remove_close_brace (s : string) : string :=
  match s with
  | String c rest =>
      if Ascii.eqb c "}" then remove_close_brace rest
      else String c (remove_close_brace rest)
  | EmptyString => EmptyString
  end.

(** One entry of the [patterns] table. Every regex of the table has the shape
    [lead (\w+)] or [lead (\w+)\.(\w+)], where for the cloud shorthands the
    lead text is inside the first group: [(aws_\w+)\.(\w+)]. *)
Record Pattern : Type := mkPattern {
  pat_lead : string;         (* literal text the match starts with *)
  pat_lead_in_group : bool;  (* lead belongs to group 1 *)
  pat_two_groups : bool;     (* [\.(\w+)] follows the first group *)
  pat_source : string;       (* the regex text, for [pattern.startswith] *)
  pat_prefix_type : string   (* second component of the table entry *)
}.

Definition patterns : list Pattern :=
  [ mkPattern "aws_" true true "(aws_\w+)\.(\w+)" "resource";
    mkPattern "azurerm_" true true "(azurerm_\w+)\.(\w+)" "resource";
    mkPattern "google_" true true "(google_\w+)\.(\w+)" "resource";
    mkPattern "resource." false true "resource\.(\w+)\.(\w+)" "resource";
    mkPattern "data." false true "data\.(\w+)\.(\w+)" "data";
    mkPattern "module." false false "module\.(\w+)" "module";
    mkPattern "var." false false "var\.(\w+)" "var";
    mkPattern "local." false false "local\.(\w+)" "local";
    mkPattern "output." false false "output\.(\w+)" "output" ].

(** A match anchored at the start of [s]: the groups and the match length.
    The [\w+] runs are greedy and a shorter run can never be followed by the
    next literal [.], so the maximal run is the only candidate. *)
Definition match_at (p : Pattern) (s : string) : option (list string * nat) :=
  if String.prefix (pat_lead p) s then
    let s1 := substring (String.length (pat_lead p))
                (String.length s - String.length (pat_lead p)) s in
    let (w1, r1) := word_span s1 in
    if String.eqb w1 EmptyString then None else
    let g1 := if pat_lead_in_group p then (pat_lead p ++ w1)%string else w1 in
    let len1 := String.length (pat_lead p) + String.length w1 in
    if pat_two_groups p then
      match r1 with
      | String dot r2 =>
          if Ascii.eqb dot "." then
            let (w2, _) := word_span r2 in
            if String.eqb w2 EmptyString then None
            else Some ([g1; w2], len1 + 1 + String.length w2)
          else None
      | EmptyString => None
      end
    else Some ([g1], len1)
  else None.

(** [re.findall]: scan left to right; after a match, resume at its end.
    [skip] counts the characters of the current match still to pass. *)
Fixpoint findall_from (p : Pattern) (skip : nat) (s : string)
  : list (list string) :=
  match s with
  | EmptyString => []
  | String _ rest =>
      match skip with
      | S k => findall_from p k rest
      | O =>
          match match_at p s with
          | Some (groups, len) => groups :: findall_from p (len - 1) rest
          | None => findall_from p 0 rest
          end
      end
  end.

Definition findall (p : Pattern) (s : string) : list (list string) :=
  findall_from p 0 s.

(** The string built for one match. *)
Definition ref_of_match (p : Pattern) (m : list string) : list string :=
  match m with
  | [m0; m1] =>
      if String.eqb (pat_prefix_type p) "resource"
         && negb (String.prefix "resource" (pat_source p))
      then [("resource." ++ m0 ++ "." ++ m1)%string]
      else [(pat_prefix_type p ++ "." ++ m0 ++ "." ++ m1)%string]
  | [m0] => [(pat_prefix_type p ++ "." ++ m0)%string]
  | _ => []
  end.

Section Parser.

(** Python's [list(set(xs))] on strings. *)
Variable py_set_list : list string -> list string.

Definition find_references (text : string) : list string :=
  let text := remove_close_brace (remove_dollar_brace text) in
  py_set_list
    (flat_map (fun p => flat_map (ref_of_match p) (findall p text)) patterns).

(** ** Dependencies ([_extract_dependencies]) *)

(** [for dep in config["depends_on"]: if isinstance(dep, str): ...]. *)
Fixpoint string_items (items : list Value) : list string :=
  match items with
  | [] => []
  | VStr s :: more => s :: string_items more
  | _ :: more => string_items more
  end.

Definition explicit_depends_on (kvs : list (string * Value)) : Res (list string) :=
  match dict_get "depends_on" kvs with
  | Some v => let* items := py_iter v in Ok (string_items items)
  | None => Ok []
  end.

(** The loop over the items of a list value: str and dict items only. *)
Fixpoint scan_list (rec : Value -> Res (list string)) (items : list Value)
  : Res (list string) :=
  match items with
  | [] => Ok []
  | item :: more =>
      let* here :=
        match item with
        | VStr s => Ok (find_references s)
        | VDict _ => rec item
        | _ => Ok []
        end in
      let* there := scan_list rec more in
      Ok (here ++ there)
  end.

(** The body of [for _key, value in config.items()] for one value. *)
Definition scan_value (rec : Value -> Res (list string)) (value : Value)
  : Res (list string) :=
  match value with
  | VStr s => Ok (find_references s)
  | VDict _ => rec value
  | VList items => scan_list rec items
  | _ => Ok []
  end.

Fixpoint scan_items (rec : Value -> Res (list string))
  (kvs : list (string * Value)) : Res (list string) :=
  match kvs with
  | [] => Ok []
  | (_, value) :: more =>
      let* here := scan_value rec value in
      let* there := scan_items rec more in
      Ok (here ++ there)
  end.

(** A config that is not a dict raises: [in] on a number, a bool or None
    ([TypeError]); on a str or a list, [config["depends_on"]] when the
    [in] test holds ([TypeError]), [config.items()] otherwise
    ([AttributeError]). *)
Fixpoint extract_dependencies (config : Value) : Res (list string) :=
  match config with
  | VDict kvs =>
      let* explicit := explicit_depends_on kvs in
      let* scanned := scan_items extract_dependencies kvs in
      Ok (py_set_list (explicit ++ scanned))
  | VStr s => if str_contains "depends_on" s then Raise TypeError else Raise AttributeError
  | VList items =>
      if existsb (fun v => match v with VStr s => String.eqb s "depends_on" | _ => false end)
           items
      then Raise TypeError else Raise AttributeError
  | _ => Raise TypeError
  end.

(** ** Entities and parser state *)

Record TerraformEntity : Type := mkEntity {
  id : string;
  type : string;
  category : string;
  name : string;
  provider : option string;
  attributes : Value;
  dependencies : list string;
  position : option (Z * Z)   (* {"x": x, "y": y} *)
}.

(** [{"source": ..., "target": ..., "type": ...}]. *)
Record Relationship : Type := mkRel {
  source : string;
  target : string;
  rtype : string
}.

(** A path as its list of components. *)
Definition FsPath := list string.

Record ParserState : Type := mkState {
  terraform_dir : FsPath;
  entities : list (string * TerraformEntity);
  relationships : list Relationship
}.

(** [TerraformParser(terraform_dir)]. *)
Definition init_parser (terraform_dir : FsPath) : ParserState :=
  mkState terraform_dir [] [].

(** [self.entities[entity_id] = entity] followed by one appended
    relationship of kind [kind] per dependency. *)
Definition add_entity (entity_id : string) (entity : TerraformEntity)
  (deps : list string) (kind : string) (st : ParserState) : ParserState :=
  mkState (terraform_dir st) (dict_set entity_id entity (entities st))
    (relationships st ++ map (fun dep => mkRel entity_id dep kind) deps).

(** A [for] loop whose body may raise. *)
Fixpoint res_fold {A S : Type} (f : S -> A -> Res S) (xs : list A) (st : S)
  : Res S :=
  match xs with
  | [] => Ok st
  | x :: more => let* st' := f st x in res_fold f more st'
  end.

(** [s.split("_")[0]]. *)
Fixpoint first_token (s : string) : string :=
  match s with
  | EmptyString => EmptyString
  | String c rest => if Ascii.eqb c "_" then EmptyString else String c (first_token rest)
  end.

(** [_extract_resources] and [_extract_data_sources]: two-level keying. *)
Definition extract_typed (category_name : string) (blocks : Value)
  (st : ParserState) : Res ParserState :=
  let* rs := py_iter blocks in
  res_fold (fun (st : ParserState) (block : Value) =>
    let* types := py_items block in
    res_fold (fun (st : ParserState) (ti : string * Value) =>
      let (block_type, instances) := ti in
      let* insts := py_items instances in
      res_fold (fun (st : ParserState) (nc : string * Value) =>
        let (nm, config) := nc in
        let entity_id := (category_name ++ "." ++ block_type ++ "." ++ nm)%string in
        let prov := first_token block_type in
        let* deps := extract_dependencies config in
        let entity := mkEntity entity_id block_type category_name nm (Some prov)
                        config deps None in
        Ok (add_entity entity_id entity deps "depends_on" st)) insts st)
      types st) rs st.

Definition extract_resources := extract_typed "resource".
Definition extract_data_sources := extract_typed "data".

(** [_extract_modules]. *)
Definition extract_modules (modules : Value) (st : ParserState) : Res ParserState :=
  let* ms := py_iter modules in
  res_fold (fun (st : ParserState) (module : Value) =>
    let* kvs := py_items module in
    res_fold (fun (st : ParserState) (nc : string * Value) =>
      let (nm, config) := nc in
      let entity_id := ("module." ++ nm)%string in
      let* deps := extract_dependencies config in
      let entity := mkEntity entity_id "module" "module" nm None config deps None in
      Ok (add_entity entity_id entity deps "depends_on" st)) kvs st) ms st.

(** [_extract_variables]: no dependencies, no relationships. *)
Definition extract_variables (variables : Value) (st : ParserState) : Res ParserState :=
  let* vs := py_iter variables in
  res_fold (fun (st : ParserState) (var : Value) =>
    let* kvs := py_items var in
    res_fold (fun (st : ParserState) (nc : string * Value) =>
      let (nm, config) := nc in
      let entity_id := ("var." ++ nm)%string in
      let entity := mkEntity entity_id "variable" "variable" nm None config [] None in
      Ok (add_entity entity_id entity [] "depends_on" st)) kvs st) vs st.

(** [_extract_outputs]: relationships of kind [references]. *)
Definition extract_outputs (outputs : Value) (st : ParserState) : Res ParserState :=
  let* os := py_iter outputs in
  res_fold (fun (st : ParserState) (output : Value) =>
    let* kvs := py_items output in
    res_fold (fun (st : ParserState) (nc : string * Value) =>
      let (nm, config) := nc in
      let entity_id := ("output." ++ nm)%string in
      let* deps := extract_dependencies config in
      let entity := mkEntity entity_id "output" "output" nm None config deps None in
      Ok (add_entity entity_id entity deps "references" st)) kvs st) os st.

(** [_extract_providers]. *)
Definition extract_providers (providers : Value) (st : ParserState) : Res ParserState :=
  let* ps := py_iter providers in
  res_fold (fun (st : ParserState) (prov : Value) =>
    let* kvs := py_items prov in
    res_fold (fun (st : ParserState) (nc : string * Value) =>
      let (nm, config) := nc in
      let entity_id := ("provider." ++ nm)%string in
      let entity := mkEntity entity_id "provider" "provider" nm (Some nm) config [] None in
      Ok (add_entity entity_id entity [] "depends_on" st)) kvs st) ps st.

(** ** Files and directories *)

(** Why [open(path)] / [f.read()] of an entry fails: no read permission
    (PermissionError), a symbolic link to nothing (FileNotFoundError), or
    content not decodable in the locale's encoding (UnicodeDecodeError). *)
Inductive ReadFailure : Type :=
| NoPermission
| DanglingLink
| NotDecodable.

Definition read_error (why : ReadFailure) : Exc :=
  match why with
  | NoPermission | DanglingLink => OSError
  | NotDecodable => UnicodeDecodeError
  end.

(** An entry of the tree: a regular file and the text reading it gives, a
    directory, or a non-directory entry whose reading fails. *)
Inductive FsEntry : Type :=
| File (content : string)
| Dir
| Unreadable (why : ReadFailure).

(** The directory tree as its listing, in the fixed enumeration order. *)
Definition FileSystem := list (FsPath * FsEntry).

Fixpoint path_eqb (p q : FsPath) : bool :=
  match p, q with
  | [], [] => true
  | a :: p', b :: q' => String.eqb a b && path_eqb p' q'
  | _, _ => false
  end.

(** [q] lies strictly below directory [d]. *)
Fixpoint strictly_below (d q : FsPath) : bool :=
  match d, q with
  | [], _ :: _ => true
  | a :: d', b :: q' => String.eqb a b && strictly_below d' q'
  | _, _ => false
  end.

Definition is_dir (fs : FileSystem) (p : FsPath) : bool :=
  existsb (fun pe => path_eqb (fst pe) p
                     && match snd pe with Dir => true | _ => false end) fs.

(** [os.path.exists] follows symbolic links: a dangling one does not exist. *)
Definition path_exists (fs : FileSystem) (p : FsPath) : bool :=
  existsb (fun pe => path_eqb (fst pe) p
                     && match snd pe with Unreadable DanglingLink => false | _ => true end) fs.

(** [fnmatch(name, "*.tf")]. *)
Definition ends_with_tf (nm : string) : bool :=
  (3 <=? String.length nm)%nat
  && String.eqb (substring (String.length nm - 3) 3 nm) ".tf".

(** [Path(d).rglob("*.tf")]: every entry strictly below [d] whose name
    matches; nothing when [d] is not an existing directory. *)
Definition rglob_tf (fs : FileSystem) (d : FsPath) : list (FsPath * FsEntry) :=
  if is_dir fs d then
    filter (fun pe => strictly_below d (fst pe) && ends_with_tf (last (fst pe) "")) fs
  else [].

(** ** One file ([_parse_file]) and the directory ([parse_directory]) *)

(** The external loader [hcl2.loads]: a dict, or an exception. *)
Variable hcl2_loads : string -> Res (list (string * Value)).

Definition is_caught (e : Exc) : bool :=
  match e with
  | LarkError | JSONDecodeError => true
  | _ => false
  end.

Definition when_present (key : string) (parsed : list (string * Value))
  (f : Value -> ParserState -> Res ParserState) (st : ParserState)
  : Res ParserState :=
  match dict_get key parsed with
  | Some v => f v st
  | None => Ok st
  end.

(** The body of the [try] block. [open] on a directory raises
    IsADirectoryError; an unreadable entry raises its read error. *)
Definition parse_file_body (st : ParserState) (entry : FsEntry) : Res ParserState :=
  match entry with
  | Dir => Raise OSError
  | Unreadable why => Raise (read_error why)
  | File content =>
      let* parsed := hcl2_loads content in
      let* st := when_present "resource" parsed extract_resources st in
      let* st := when_present "data" parsed extract_data_sources st in
      let* st := when_present "module" parsed extract_modules st in
      let* st := when_present "variable" parsed extract_variables st in
      let* st := when_present "output" parsed extract_outputs st in
      when_present "provider" parsed extract_providers st
  end.

(** [except (LarkError, JSONDecodeError)]: print and go on with the state
    as it was. Only the loader raises these, before any mutation; the
    extraction routines raise only [TypeError]/[AttributeError]. The
    printed diagnostic is not modelled. *)
Definition parse_file (st : ParserState) (entry : FsEntry) : Res ParserState :=
  match parse_file_body st entry with
  | Raise e => if is_caught e then Ok st else Raise e
  | Ok st' => Ok st'
  end.

Record Metadata : Type := mkMeta {
  total_files : nat;
  total_entities : nat;
  total_relationships : nat
}.

(** The returned dict; [json.dump] of equal values gives equal text. *)
Record GraphResult : Type := mkGraph {
  g_entities : list TerraformEntity;
  g_relationships : list Relationship;
  g_metadata : Metadata
}.

Definition parse_directory (fs : FileSystem) (st : ParserState)
  : Res (ParserState * GraphResult) :=
  let tf_files := rglob_tf fs (terraform_dir st) in
  let* st' := res_fold (fun st f => parse_file st (snd f)) tf_files st in
  Ok (st', mkGraph (map snd (entities st')) (relationships st')
             (mkMeta (length tf_files) (length (entities st'))
                     (length (relationships st')))).

(** ** Layout ([calculate_layout]) *)

(** [categories]: category -> keys of its entities, first-seen order. *)
Definition group_by_category (es : list (string * TerraformEntity))
  : list (string * list string) :=
  fold_left (fun (cats : list (string * list string)) (ke : string * TerraformEntity) =>
    let (k, e) := ke in
    match dict_get (category e) cats with
    | Some ks => dict_set (category e) (ks ++ [k]) cats
    | None => dict_set (category e) [k] cats
    end) es [].

Definition with_position (e : TerraformEntity) (pos : Z * Z) : TerraformEntity :=
  mkEntity (id e) (type e) (category e) (name e) (provider e) (attributes e)
    (dependencies e) (Some pos).

(** [entity.position = {...}] on the object stored under key [k]. *)
Definition set_position (k : string) (pos : Z * Z)
  (es : list (string * TerraformEntity)) : list (string * TerraformEntity) :=
  map (fun ke => if String.eqb (fst ke) k then (fst ke, with_position (snd ke) pos)
                 else ke) es.

Fixpoint place_column (x_offset y_offset : Z) (ks : list string)
  (es : list (string * TerraformEntity)) : list (string * TerraformEntity) :=
  match ks with
  | [] => es
  | k :: more =>
      place_column x_offset (y_offset + 1)%Z more
        (set_position k (x_offset * 250, y_offset * 150)%Z es)
  end.

Fixpoint place_columns (x_offset : Z) (cats : list (string * list string))
  (es : list (string * TerraformEntity)) : list (string * TerraformEntity) :=
  match cats with
  | [] => es
  | (_, ks) :: more => place_columns (x_offset + 1)%Z more (place_column x_offset 0 ks es)
  end.

Definition calculate_layout (st : ParserState) : ParserState :=
  mkState (terraform_dir st)
    (place_columns 0 (group_by_category (entities st)) (entities st))
    (relationships st).

(** ** Saving ([save_to_json]) and the entry point ([parse_terraform]) *)

(** [json.dump(result, f, indent=2, default=str)]: the JSON text of a
    value, as Python's encoder writes it with [indent=2] (item separator
    [","], key separator [": "]) and [ensure_ascii=True]: a character outside
    space .. [~] is written as \uXXXX (lower-case hex) unless it has a
    short escape. *)
Definition dq : ascii := ascii_of_nat 34.
Definition bsl : ascii := ascii_of_nat 92.

Definition hex_digit (n : nat) : ascii :=
  ascii_of_nat (if Nat.ltb n 10 then 48 + n else 87 + n).

Definition json_escape_char (c : ascii) : string :=
  let n := nat_of_ascii c in
  if Nat.eqb n 92 then String bsl (String bsl EmptyString)
  else if Nat.eqb n 34 then String bsl (String dq EmptyString)
  else if Nat.eqb n 8 then String bsl "b"
  else if Nat.eqb n 12 then String bsl "f"
  else if Nat.eqb n 10 then String bsl "n"
  else if Nat.eqb n 13 then String bsl "r"
  else if Nat.eqb n 9 then String bsl "t"
  else if Nat.leb 32 n && Nat.leb n 126 then String c EmptyString
  else String bsl ("u00" ++ String (hex_digit (n / 16))
                               (String (hex_digit (n mod 16)) EmptyString)).

Fixpoint json_escape (s : string) : string :=
  match s with
  | EmptyString => EmptyString
  | String c rest => json_escape_char c ++ json_escape rest
  end.

Definition json_string (s : string) : string :=
  String dq (json_escape s ++ String dq EmptyString).

(** [str(n)] for an int: decimal digits, most significant first. *)
Fixpoint decimal_digits (fuel : nat) (n : Z) (acc : string) : string :=
  match fuel with
  | O => acc
  | S fuel =>
      let acc := String (ascii_of_nat (48 + Z.to_nat (n mod 10))) acc in
      if Z.eqb (n / 10) 0 then acc else decimal_digits fuel (n / 10)%Z acc
  end.

Definition z_decimal (n : Z) : string :=
  let fuel := S (Z.to_nat (Z.log2 (Z.abs n))) in
  if Z.ltb n 0 then "-" ++ decimal_digits fuel (- n)%Z EmptyString
  else decimal_digits fuel n EmptyString.

Fixpoint spaces (lvl : nat) : string :=
  match lvl with
  | O => EmptyString
  | S k => "  " ++ spaces k
  end.

(** A newline and the indentation of nesting level [lvl]. *)
Definition newline_indent (lvl : nat) : string := String (ascii_of_nat 10) (spaces lvl).

Fixpoint json_dump (lvl : nat) (v : Value) : string :=
  match v with
  | VStr s => json_string s
  | VNum n => z_decimal n
  | VBool true => "true"
  | VBool false => "false"
  | VNone => "null"
  | VList [] => "[]"
  | VList items =>
      ("[" ++ (fix go (xs : list Value) : string :=
                match xs with
                | [] => EmptyString
                | [x] => newline_indent (S lvl) ++ json_dump (S lvl) x
                | x :: more => newline_indent (S lvl) ++ json_dump (S lvl) x ++ "," ++ go more
                end%string) items
          ++ newline_indent lvl ++ "]")%string
  | VDict [] => "{}"
  | VDict kvs =>
      ("{" ++ (fix go (kvs : list (string * Value)) : string :=
                match kvs with
                | [] => EmptyString
                | [(k, x)] => newline_indent (S lvl) ++ json_string k ++ ": " ++ json_dump (S lvl) x
                | (k, x) :: more =>
                    newline_indent (S lvl) ++ json_string k ++ ": " ++ json_dump (S lvl) x
                    ++ "," ++ go more
                end%string) kvs
          ++ newline_indent lvl ++ "}")%string
  end.

(** [asdict(entity)] (fields in declaration order), a relationship dict and
    the result dict of [parse_directory], as JSON values. *)
Definition entity_json (e : TerraformEntity) : Value :=
  VDict [("id", VStr (id e)); ("type", VStr (type e)); ("category", VStr (category e));
         ("name", VStr (name e));
         ("provider", match provider e with Some p => VStr p | None => VNone end);
         ("attributes", attributes e);
         ("dependencies", VList (map VStr (dependencies e)));
         ("position", match position e with
                      | Some (x, y) => VDict [("x", VNum x); ("y", VNum y)]
                      | None => VNone
                      end)].

Definition relationship_json (r : Relationship) : Value :=
  VDict [("source", VStr (source r)); ("target", VStr (target r)); ("type", VStr (rtype r))].

Definition graph_json (g : GraphResult) : Value :=
  VDict [("entities", VList (map entity_json (g_entities g)));
         ("relationships", VList (map relationship_json (g_relationships g)));
         ("metadata", VDict [("total_files", VNum (Z.of_nat (total_files (g_metadata g))));
                             ("total_entities", VNum (Z.of_nat (total_entities (g_metadata g))));
                             ("total_relationships",
                              VNum (Z.of_nat (total_relationships (g_metadata g))))])].

Definition json_text (g : GraphResult) : string := json_dump 0 (graph_json g).

(** ** Writing a file *)

(** Whether the operating system lets the process create, or open for
    writing, the entry at a path: permissions (and, for a symbolic link,
    its target), which the listing does not record. *)
Variable can_write : FsPath -> bool.

(** Some entry of the listing is at [p]. *)
Definition has_entry (fs : FileSystem) (p : FsPath) : bool :=
  existsb (fun qe => path_eqb (fst qe) p) fs.

(** [Path(p).mkdir(parents=True, exist_ok=True)]: every missing directory
    on the way is created, outermost first; an existing entry that is not a
    directory (FileExistsError, NotADirectoryError) or a refused creation
    (PermissionError) raises. The empty path is the working directory. *)
Fixpoint mkdir_parents (fs : FileSystem) (above : FsPath) (rest : list string)
  : Res FileSystem :=
  match rest with
  | [] => Ok fs
  | c :: more =>
      let p := (above ++ [c])%list in
      if is_dir fs p then mkdir_parents fs p more
      else if has_entry fs p then Raise OSError
      else if can_write p then mkdir_parents (fs ++ [(p, Dir)]) p more
      else Raise OSError
  end.

(** [with open(p, "w") as f: f.write(text)]: a directory (IsADirectoryError)
    or a refused opening raises; otherwise the entry at [p] is replaced or
    created. A file without read permission stays unreadable. *)
Definition written_entry (old : FsEntry) (text : string) : FsEntry :=
  match old with
  | Unreadable NoPermission => Unreadable NoPermission
  | _ => File text
  end.

Definition write_text (fs : FileSystem) (p : FsPath) (text : string) : Res FileSystem :=
  match p with
  | [] => Raise OSError
  | _ =>
      if is_dir fs p then Raise OSError
      else if can_write p then
        if has_entry fs p then
          Ok (map (fun qe => if path_eqb (fst qe) p then (fst qe, written_entry (snd qe) text)
                             else qe) fs)
        else Ok (fs ++ [(p, File text)])
      else Raise OSError
  end.

(** The state after the call, the tree after the write, and the document
    written to [output_path] ([output_file.parent.mkdir(...)], then
    [json.dump]; the printed line is not modelled). *)
Definition save_to_json (fs : FileSystem) (st : ParserState) (output_path : FsPath)
  : Res (ParserState * (FileSystem * GraphResult)) :=
  let st := calculate_layout st in
  let* r := parse_directory fs st in
  let (st', result) := r in
  let* fs1 := mkdir_parents fs [] (removelast output_path) in
  let* fs2 := write_text fs1 output_path (json_text result) in
  Ok (st', (fs2, result)).

(** The persisted document and the returned dict; the final scan sees the
    tree as the write left it. *)
Definition parse_terraform (fs : FileSystem) (terraform_dir : FsPath)
  (output_path : FsPath) : Res (GraphResult * GraphResult) :=
  let parser := init_parser terraform_dir in
  let* r1 := save_to_json fs parser output_path in
  let (parser, written) := r1 in
  let (fs', persisted) := written in
  let* r2 := parse_directory fs' parser in
  Ok (persisted, snd r2).

End Parser.

(** One admissible [list(set(xs))] order: Stdlib's [nodup]. *)
Definition dedup (xs : list string) : list string := nodup string_dec xs.

(** ** A sample directory

    [tf/main.tf] declares [aws_vpc.main] and [aws_subnet.public] with
    [vpc_id = aws_vpc.main.id]; [tf/broken.tf] holds invalid syntax. The
    loader below returns what [hcl2.loads] gives for these texts. *)

Definition main_tf : string :=
  "resource aws_vpc main {}
resource aws_subnet public {
  vpc_id = aws_vpc.main.id
}
".

Definition broken_tf : string := "this is not valid HCL {{{".

Definition main_tf_parsed : list (string * Value) :=
  [("resource",
    VList [VDict [("aws_vpc", VDict [("main", VDict [])])];
           VDict [("aws_subnet",
                   VDict [("public", VDict [("vpc_id", VStr "${aws_vpc.main.id}")])])]])].

(** A resource whose own attribute refers to itself. *)
Definition self_ref_tf : string :=
  "resource aws_instance web {
  user_data = aws_instance.web.id
}
".

Definition self_ref_tf_parsed : list (string * Value) :=
  [("resource",
    VList [VDict [("aws_instance",
                   VDict [("web", VDict [("user_data", VStr "${aws_instance.web.id}")])])]])].

Definition sample_loads (content : string) : Res (list (string * Value)) :=
  if String.eqb content main_tf then Ok main_tf_parsed
  else if String.eqb content self_ref_tf then Ok self_ref_tf_parsed
  else Raise LarkError.

Definition sample_fs : FileSystem :=
  [(["tf"], Dir); (["tf"; "main.tf"], File main_tf)].

(** A working directory where every directory path of the route names the
    sample tree [tf] and the output file is [out.json]. *)
Definition sample_resolve (p : string) : FsPath :=
  if String.eqb p "work/build/tf_entities.json" then ["out.json"] else ["tf"].

(** A process allowed to write anywhere. *)
Definition all_writable : FsPath -> bool := fun _ => true.

Definition sample_fs_broken : FileSystem :=
  [(["tf"], Dir); (["tf"; "broken.tf"], File broken_tf);
   (["tf"; "main.tf"], File main_tf)].

(** A tree whose second [*.tf] file is not decodable text. *)
Definition sample_fs_undecodable : FileSystem :=
  [(["tf"], Dir); (["tf"; "main.tf"], File main_tf);
   (["tf"; "notes.tf"], Unreadable NotDecodable)].

Definition sample_fs_self_ref : FileSystem :=
  [(["tf"], Dir); (["tf"; "web.tf"], File self_ref_tf)].

(** [depends_on = [aws_instance.web]] as the loader gives it. *)
Definition depends_on_config : Value :=
  VDict [("depends_on", VList [VStr "${aws_instance.web}"])].

(** [matrix = [[var.x]]]: a list nested in a list. *)
Definition nested_list_config : Value :=
  VDict [("matrix", VList [VList [VStr "${var.x}"]])].

Definition flat_list_config : Value :=
  VDict [("matrix", VList [VStr "${var.x}"])].

(** The empty result of [parse_directory] on a fresh parser. *)
Definition empty_graph : GraphResult := mkGraph [] [] (mkMeta 0 0 0).

(** ** The HTTP layer ([apps/tf-visualizer/backend/api.py]) *)

Module Api.
Section Api.

Variable py_set_list : list string -> list string.
Variable hcl2_loads : string -> Res (list (string * Value)).
Variable can_write : FsPath -> bool.

(** [parse_terraform] of the API: [parse_directory], then [save_to_json];
    the persisted document and the returned dict. [result["relationships"]]
    is the list object [parser.relationships] itself, which the
    [parse_directory] call inside [save_to_json] extends before the dict is
    serialized; the entities are [asdict] copies and the metadata numbers. *)
Definition parse_terraform (fs : FileSystem) (directory output_path : FsPath)
  : Res (GraphResult * GraphResult) :=
  let parser := init_parser directory in
  let* r1 := parse_directory py_set_list hcl2_loads fs parser in
  let (parser, result) := r1 in
  let* r2 := save_to_json py_set_list hcl2_loads can_write fs parser output_path in
  let (parser, written) := r2 in
  Ok (snd written, mkGraph (g_entities result) (relationships parser) (g_metadata result)).

(** [path_mappings] of [parse_terraform_directory]. *)
Definition path_mappings : list (string * string) :=
  [("terraform", "/app/project/terraform"); ("helm", "/app/project/helm");
   ("test", "/app/test-terraform")].

Definition map_directory (directory : string) : string :=
  match dict_get directory path_mappings with
  | Some mapped => mapped
  | None =>
      if String.prefix "project/" directory then ("/app/" ++ directory)%string
      else directory
  end.

(** The replies of the route: [jsonify({"error": msg}), status];
    [jsonify({"success": True, "data": result, "source": directory})];
    [jsonify({"success": False, "error": str(e)}), 500]; and the HTTP
    errors Flask raises from [request.get_json()]. *)
Inductive Response : Type :=
| ErrorReply (status : nat) (error : string)
| Success (data : GraphResult) (src : string)
| Failure (status : nat) (error : Exc)
| HttpError (status : nat).

(** The body of a request: not declared as JSON, declared as JSON but
    malformed, or a JSON value (numbers are ints). *)
Inductive Request : Type :=
| NotJson
| BadJson
| Json (v : Value).

(** [request.get_json()] on a body not declared as JSON: Flask 2.1 and
    later raise UnsupportedMediaType (415); earlier versions return [None]. *)
Variable rejects_non_json : bool.

(** How the process resolves the text of a path ([os.path.exists],
    [Path(...)]) relative to its working directory. *)
Variable resolve : string -> FsPath.

(** [bool(v)] of a JSON value. *)
Definition py_truthy (v : Value) : bool :=
  match v with
  | VNone => false
  | VBool b => b
  | VNum n => negb (Z.eqb n 0)
  | VStr s => negb (String.eqb s "")
  | VList items => match items with [] => false | _ => true end
  | VDict kvs => match kvs with [] => false | _ => true end
  end.

(** [v == "directory"]. *)
Definition is_directory_str (v : Value) : bool :=
  match v with
  | VStr s => String.eqb s "directory"
  | _ => false
  end.

(** ["directory" in data]: a key test on a dict, an element test on a list,
    a substring test on a str; an int or a bool raises [TypeError]. *)
Definition contains_directory (data : Value) : Res bool :=
  match data with
  | VDict kvs => Ok (match dict_get "directory" kvs with Some _ => true | None => false end)
  | VList items => Ok (existsb is_directory_str items)
  | VStr s => Ok (str_contains "directory" s)
  | _ => Raise TypeError
  end.

(** [data["directory"]]: indexing a list or a str by a str raises
    [TypeError]. *)
Definition get_directory (data : Value) : Res Value :=
  match data with
  | VDict kvs =>
      match dict_get "directory" kvs with
      | Some v => Ok v
      | None => Raise KeyError
      end
  | _ => Raise TypeError
  end.

Definition no_directory : Res Response := Ok (ErrorReply 400 "No directory path provided").

(** [POST /api/parse-directory]. [data["directory"]] must be a str:
    [in path_mappings] raises [TypeError] on an unhashable list or dict and
    [.startswith] raises [AttributeError] on the other values, outside the
    [try] block. *)
Definition parse_terraform_directory (fs : FileSystem) (req : Request) : Res Response :=
  match req with
  | NotJson => if rejects_non_json then Ok (HttpError 415) else no_directory
  | BadJson => Ok (HttpError 400)
  | Json data =>
      if negb (py_truthy data) then no_directory else
      let* has := contains_directory data in
      if negb has then no_directory else
      let* dv := get_directory data in
      match dv with
      | VStr d =>
          let directory := map_directory d in
          if negb (path_exists fs (resolve directory)) then
            Ok (ErrorReply 404 ("Directory " ++ directory ++ " does not exist")%string)
          else
            match parse_terraform fs (resolve directory)
                    (resolve "work/build/tf_entities.json") with
            | Ok (_, result) => Ok (Success result directory)
            | Raise e => Ok (Failure 500 e)
            end
      | VList _ | VDict _ => Raise TypeError
      | _ => Raise AttributeError
      end
  end.

End Api.
End Api.

(** * Properties *)

Example find_refs_sample :
  find_references dedup "${aws_vpc.main.id} and data.aws_ami.ubuntu.id, var.x"
  = ["resource.aws_vpc.main"; "resource.aws_ami.ubuntu"; "data.aws_ami.ubuntu";
     "var.x"].
Proof. vm_compute. reflexivity. Qed.

(** C1: a second [parse_directory] call on the same parser appends the
    relationships again: 1 relationship after the first call, 2 after the
    second, so the two results differ. *)
Theorem parse_directory_second_call_differs :
  match parse_directory dedup sample_loads sample_fs (init_parser ["tf"]) with
  | Ok (st1, r1) =>
      match parse_directory dedup sample_loads sample_fs st1 with
      | Ok (_, r2) =>
          total_relationships (g_metadata r1) = 1%nat
          /\ total_relationships (g_metadata r2) = 2%nat
          /\ g_relationships r2 = g_relationships r1 ++ g_relationships r1
          /\ r1 <> r2
      | Raise _ => False
      end
  | Raise _ => False
  end.
Proof.
  vm_compute. split; [reflexivity|]. split; [reflexivity|].
  split; [reflexivity|]. discriminate.
Qed.

(** C2: [parse_terraform] writes the result of its first
    [parse_directory] call and returns the result of a second one: the
    written document has 1 relationship, the returned one 2. *)
Theorem parse_terraform_persisted_differs :
  match parse_terraform dedup sample_loads all_writable sample_fs ["tf"] ["out.json"] with
  | Ok (persisted, returned) =>
      total_relationships (g_metadata persisted) = 1%nat
      /\ total_relationships (g_metadata returned) = 2%nat
      /\ persisted <> returned
  | Raise _ => False
  end.
Proof.
  vm_compute. split; [reflexivity|]. split; [reflexivity|]. discriminate.
Qed.

(** C3 (counterexample): [tf/missing] does not exist, yet extraction
    returns a GraphResult (the empty one) instead of failing. *)
Lemma missing_directory_returns_graph :
  path_exists sample_fs ["tf"; "missing"] = false
  /\ parse_directory dedup sample_loads sample_fs (init_parser ["tf"; "missing"])
     = Ok (init_parser ["tf"; "missing"], empty_graph).
Proof. split; vm_compute; reflexivity. Qed.

(** C4 (counterexample): a [depends_on] entry is also scanned for
    references, which adds [resource.aws_instance.web] next to the verbatim
    entry, though the config has no other attribute. *)
Lemma depends_on_entries_are_scanned :
  extract_dependencies dedup depends_on_config
  = Ok ["${aws_instance.web}"; "resource.aws_instance.web"].
Proof. vm_compute. reflexivity. Qed.

(** C5 (counterexample): the entity [resource.aws_instance.web] lists its
    own identifier among its dependencies. *)
Lemma self_reference_kept :
  match parse_directory dedup sample_loads sample_fs_self_ref (init_parser ["tf"]) with
  | Ok (_, r) =>
      exists e, In e (g_entities r) /\ id e = "resource.aws_instance.web"
                /\ In (id e) (dependencies e)
  | Raise _ => False
  end.
Proof.
  vm_compute. eexists. split; [left; reflexivity|]. split; [reflexivity|].
  left; reflexivity.
Qed.

(** C7: a reference in a list nested in a list is missed, while the same
    reference one list level up is found. *)
Theorem nested_list_reference_missed :
  extract_dependencies dedup nested_list_config = Ok []
  /\ extract_dependencies dedup flat_list_config = Ok ["var.x"].
Proof. split; vm_compute; reflexivity. Qed.

(** ** Every extraction step adds a well-formed entity *)

Section Steps.

Variable py_set_list : list string -> list string.
Variable hcl2_loads : string -> Res (list (string * Value)).

(** What each [self.entities[entity_id] = entity] of the extraction
    routines satisfies, together with the relationships appended after it. *)
Definition good_add (k : string) (e : TerraformEntity) (deps : list string)
  (kind : string) : Prop :=
  k = id e /\ position e = None /\ dependencies e = deps
  /\ (((category e = "variable" \/ category e = "provider") /\ deps = [])
      \/ ((category e <> "variable" /\ category e <> "provider")
          /\ extract_dependencies py_set_list (attributes e) = Ok deps))
  /\ (category e = "output" <-> String.prefix "output." k = true)
  /\ ((kind = "references" /\ String.prefix "output." k = true)
      \/ (kind = "depends_on" /\ String.prefix "output." k = false)).

Inductive steps : ParserState -> ParserState -> Prop :=
| steps_refl st : steps st st
| steps_add st st' k e deps kind :
    good_add k e deps kind ->
    steps (add_entity k e deps kind st) st' -> steps st st'.

Lemma steps_trans st1 st2 st3 :
  steps st1 st2 -> steps st2 st3 -> steps st1 st3.
Proof.
  induction 1; intros H3; [exact H3|].
  eapply steps_add; eauto.
Qed.

Lemma steps_one st k e deps kind :
  good_add k e deps kind -> steps st (add_entity k e deps kind st).
Proof. intros H. eapply steps_add; [exact H | constructor]. Qed.

Lemma steps_preserve (I : ParserState -> Prop) :
  (forall st k e deps kind, good_add k e deps kind -> I st ->
     I (add_entity k e deps kind st)) ->
  forall st st', steps st st' -> I st -> I st'.
Proof.
  intros Hadd st st' Hs. induction Hs; intros HI; auto.
Qed.

Lemma steps_dir st st' : steps st st' -> terraform_dir st' = terraform_dir st.
Proof.
  induction 1; [reflexivity|]. rewrite IHsteps. reflexivity.
Qed.

Lemma res_fold_steps {A : Type} (f : ParserState -> A -> Res ParserState) :
  (forall st x st', f st x = Ok st' -> steps st st') ->
  forall xs st st', res_fold f xs st = Ok st' -> steps st st'.
Proof.
  intros Hf xs. induction xs as [|x xs IH]; simpl; intros st st' H.
  - injection H as <-. constructor.
  - destruct (f st x) as [st1|e] eqn:E; simpl in H; [|discriminate].
    eapply steps_trans; [eapply Hf; exact E | exact (IH _ _ H)].
Qed.

Lemma extract_dependencies_shape c deps :
  extract_dependencies py_set_list c = Ok deps -> exists xs, deps = py_set_list xs.
Proof.
  destruct c as [s| | | |kvs|items]; simpl; try discriminate.
  3:{ destruct (existsb _ items); discriminate. }
  1:{ destruct (str_contains "depends_on" s); discriminate. }
  destruct (explicit_depends_on kvs) as [ex|]; simpl; [|discriminate].
  destruct (scan_items py_set_list (extract_dependencies py_set_list) kvs) as [sc|];
    simpl; [|discriminate].
  intros H; injection H as <-. eauto.
Qed.

Ltac bind_ok H :=
  match type of H with
  | res_bind ?m _ = Ok _ =>
      let E := fresh "E" in
      destruct m eqn:E; simpl in H; [|discriminate]
  end.

Lemma prefix_empty s : String.prefix "" s = true.
Proof. destruct s; reflexivity. Qed.

Ltac good_add_tac :=
  unfold good_add; cbn [id position dependencies category];
  split; [reflexivity|]; split; [reflexivity|]; split; [reflexivity|];
  split; [first [left; split; [first [left; reflexivity | right; reflexivity] | reflexivity]
               | right; split; [split; discriminate | eassumption]] |];
  split; [simpl; split; intros; first [reflexivity | discriminate | apply prefix_empty] |];
  simpl; first [left; split; [reflexivity | apply prefix_empty]
               | right; split; reflexivity].

Lemma extract_typed_steps cat v st st' :
  cat = "resource" \/ cat = "data" ->
  extract_typed py_set_list cat v st = Ok st' -> steps st st'.
Proof.
  intros Hcat H. unfold extract_typed in H. bind_ok H.
  revert H. apply res_fold_steps. intros st1 block st2 H. bind_ok H.
  revert H. apply res_fold_steps. intros st3 [bt instances] st4 H. bind_ok H.
  revert H. apply res_fold_steps. intros st5 [nm config] st6 H. bind_ok H.
  injection H as <-.
  apply steps_one.
  destruct Hcat; subst cat; good_add_tac.
Qed.
Ltac one_level_steps H :=
  bind_ok H; revert H; apply res_fold_steps; intros ?st1 ?blk ?st2 H; bind_ok H;
  revert H; apply res_fold_steps; intros ?st3 [?nm ?config] ?st4 H;
  simpl in H; repeat bind_ok H; injection H as <-;
  apply steps_one; good_add_tac.

Lemma extract_modules_steps v st st' :
  extract_modules py_set_list v st = Ok st' -> steps st st'.
Proof. intros H. unfold extract_modules in H. one_level_steps H. Qed.

Lemma extract_variables_steps v st st' :
  extract_variables v st = Ok st' -> steps st st'.
Proof. intros H. unfold extract_variables in H. one_level_steps H. Qed.

Lemma extract_outputs_steps v st st' :
  extract_outputs py_set_list v st = Ok st' -> steps st st'.
Proof. intros H. unfold extract_outputs in H. one_level_steps H. Qed.

Lemma extract_providers_steps v st st' :
  extract_providers v st = Ok st' -> steps st st'.
Proof. intros H. unfold extract_providers in H. one_level_steps H. Qed.

Lemma when_present_steps key parsed f st st' :
  (forall v st st', f v st = Ok st' -> steps st st') ->
  when_present key parsed f st = Ok st' -> steps st st'.
Proof.
  intros Hf. unfold when_present. destruct (dict_get key parsed).
  - apply Hf.
  - intros H; injection H as <-; constructor.
Qed.

Lemma parse_file_steps st entry st' :
  parse_file py_set_list hcl2_loads st entry = Ok st' -> steps st st'.
Proof.
  unfold parse_file, parse_file_body.
  destruct entry as [content| |why].
  3:{ simpl. destruct why; simpl; discriminate. }
  2:{ simpl. discriminate. }
  destruct (hcl2_loads content) as [parsed|e]; simpl.
  2:{ destruct (is_caught e); intros H; [injection H as <-; constructor | discriminate]. }
  unfold extract_resources, extract_data_sources.
  destruct (when_present "resource" parsed (extract_typed py_set_list "resource") st)
    as [s1|e] eqn:E1; simpl.
  2:{ destruct (is_caught e); intros H; [injection H as <-; constructor | discriminate]. }
  destruct (when_present "data" parsed (extract_typed py_set_list "data") s1)
    as [s2|e] eqn:E2; simpl.
  2:{ destruct (is_caught e); intros H; [injection H as <-; constructor | discriminate]. }
  destruct (when_present "module" parsed (extract_modules py_set_list) s2)
    as [s3|e] eqn:E3; simpl.
  2:{ destruct (is_caught e); intros H; [injection H as <-; constructor | discriminate]. }
  destruct (when_present "variable" parsed extract_variables s3)
    as [s4|e] eqn:E4; simpl.
  2:{ destruct (is_caught e); intros H; [injection H as <-; constructor | discriminate]. }
  destruct (when_present "output" parsed (extract_outputs py_set_list) s4)
    as [s5|e] eqn:E5; simpl.
  2:{ destruct (is_caught e); intros H; [injection H as <-; constructor | discriminate]. }
  destruct (when_present "provider" parsed extract_providers s5)
    as [s6|e] eqn:E6; simpl.
  2:{ destruct (is_caught e); intros H; [injection H as <-; constructor | discriminate]. }
  intros H; injection H as <-.
  eapply steps_trans.
  { eapply when_present_steps; [|exact E1]. intros; eapply extract_typed_steps; [left; reflexivity | eassumption]. }
  eapply steps_trans.
  { eapply when_present_steps; [|exact E2]. intros; eapply extract_typed_steps; [right; reflexivity | eassumption]. }
  eapply steps_trans.
  { eapply when_present_steps; [|exact E3]. apply extract_modules_steps. }
  eapply steps_trans.
  { eapply when_present_steps; [|exact E4]. apply extract_variables_steps. }
  eapply steps_trans.
  { eapply when_present_steps; [|exact E5]. apply extract_outputs_steps. }
  eapply when_present_steps; [|exact E6]. apply extract_providers_steps.
Qed.

Lemma parse_directory_steps fs st st' r :
  parse_directory py_set_list hcl2_loads fs st = Ok (st', r) ->
  steps st st'
  /\ r = mkGraph (map snd (entities st')) (relationships st')
           (mkMeta (length (rglob_tf fs (terraform_dir st)))
                   (length (entities st')) (length (relationships st'))).
Proof.
  unfold parse_directory.
  destruct (res_fold _ _ st) as [s1|e] eqn:E; simpl; [|discriminate].
  intros H; injection H as <- <-. split; [|reflexivity].
  revert E. apply res_fold_steps. intros st0 f st1. apply parse_file_steps.
Qed.

End Steps.

(** ** Invariants of the parser state *)

(** What [list(set(xs))] guarantees whatever the hash order. *)
Definition set_list_spec (py_set_list : list string -> list string) : Prop :=
  forall xs, NoDup (py_set_list xs) /\ (forall x, In x (py_set_list xs) <-> In x xs).

Lemma dedup_spec : set_list_spec dedup.
Proof.
  intros xs. unfold dedup. split; [apply NoDup_nodup | intros x; apply nodup_In].
Qed.

Lemma dict_set_in {A} k v (kvs : list (string * A)) k' v' :
  In (k', v') (dict_set k v kvs) -> (k', v') = (k, v) \/ In (k', v') kvs.
Proof.
  induction kvs as [|[k0 w] rest IH]; simpl.
  - intros [H|[]]. left; symmetry; exact H.
  - destruct (String.eqb k0 k) eqn:E.
    + apply String.eqb_eq in E. subst k0. simpl. intros [H|H].
      * left; symmetry; exact H.
      * right; right; exact H.
    + simpl. intros [H|H]; [right; left; exact H|].
      destruct (IH H) as [H'|H']; [left; exact H' | right; right; exact H'].
Qed.

Lemma dict_get_set {A} k v (kvs : list (string * A)) :
  dict_get k (dict_set k v kvs) = Some v.
Proof.
  induction kvs as [|[k0 w] rest IH]; simpl.
  - rewrite String.eqb_refl. reflexivity.
  - destruct (String.eqb k0 k) eqn:E; simpl.
    + rewrite E. reflexivity.
    + rewrite E. exact IH.
Qed.

Lemma in_map_snd {A B} (b : B) (l : list (A * B)) :
  In b (map snd l) -> exists a, In (a, b) l.
Proof.
  intros H. apply in_map_iff in H. destruct H as [[a b'] [Hb Hin]].
  simpl in Hb. subst b'. exists a. exact Hin.
Qed.

Section Invariants.

Variable py_set_list : list string -> list string.
Variable hcl2_loads : string -> Res (list (string * Value)).

Lemma entities_preserve (P : string -> TerraformEntity -> Prop) :
  (forall k e deps kind, good_add py_set_list k e deps kind -> P k e) ->
  forall st st', steps py_set_list st st' ->
  (forall k e, In (k, e) (entities st) -> P k e) ->
  (forall k e, In (k, e) (entities st') -> P k e).
Proof.
  intros Hgood st st' Hs.
  apply (steps_preserve py_set_list
           (fun st => forall k e, In (k, e) (entities st) -> P k e)); [|exact Hs].
  intros st0 k e deps kind Hg HI k' e' Hin. simpl in Hin.
  apply dict_set_in in Hin. destruct Hin as [Heq|Hin].
  - injection Heq as -> ->. eapply Hgood; exact Hg.
  - apply HI; exact Hin.
Qed.

(** The invariant behind the edge kinds. *)
Definition edge_kind_inv (st : ParserState) : Prop :=
  (forall k e, In (k, e) (entities st) ->
     k = id e /\ (category e = "output" <-> String.prefix "output." k = true))
  /\ (forall r, In r (relationships st) ->
        (rtype r = "references" /\ String.prefix "output." (source r) = true)
        \/ (rtype r = "depends_on" /\ String.prefix "output." (source r) = false)).

Lemma edge_kind_inv_steps st st' :
  steps py_set_list st st' -> edge_kind_inv st -> edge_kind_inv st'.
Proof.
  apply steps_preserve. intros st0 k e deps kind Hg [He Hr].
  destruct Hg as (Hid & _ & _ & _ & Hcat & Hkind). split.
  - intros k' e' Hin. simpl in Hin. apply dict_set_in in Hin.
    destruct Hin as [Heq|Hin]; [|apply He; exact Hin].
    injection Heq as -> ->. split; [exact Hid | exact Hcat].
  - intros r Hin. simpl in Hin. apply in_app_or in Hin. destruct Hin as [Hin|Hin].
    + apply Hr; exact Hin.
    + apply in_map_iff in Hin. destruct Hin as [dep [<- _]]. simpl. exact Hkind.
Qed.

End Invariants.

(** ** Claims about [parse_directory] and [parse_terraform] *)

Lemma parse_file_caught py_set_list hcl2_loads st content e :
  hcl2_loads content = Raise e -> is_caught e = true ->
  parse_file py_set_list hcl2_loads st (File content) = Ok st.
Proof.
  intros Hl Hc. unfold parse_file, parse_file_body. rewrite Hl. simpl.
  rewrite Hc. reflexivity.
Qed.

Lemma positions_unset_steps py_set_list st st' :
  steps py_set_list st st' ->
  (forall k e, In (k, e) (entities st) -> position e = None) ->
  (forall k e, In (k, e) (entities st') -> position e = None).
Proof.
  apply (entities_preserve py_set_list (fun _ e => position e = None)).
  intros k e deps kind Hg. apply Hg.
Qed.

Lemma init_layout dir : calculate_layout (init_parser dir) = init_parser dir.
Proof. reflexivity. Qed.

(** ** The write of [save_to_json] *)

Lemma path_eqb_eq p q : path_eqb p q = true -> p = q.
Proof.
  revert q. induction p as [|a p IH]; intros [|b q]; simpl; try discriminate; [reflexivity|].
  intros H. apply andb_prop in H. destruct H as [Ha Hp].
  apply String.eqb_eq in Ha. subst b. f_equal. apply IH, Hp.
Qed.

Lemma path_eqb_refl p : path_eqb p p = true.
Proof. induction p as [|a p IH]; simpl; [reflexivity|]. rewrite String.eqb_refl. exact IH. Qed.

Lemma strictly_below_app d r : r <> [] -> strictly_below d (d ++ r) = true.
Proof.
  intros Hr. induction d as [|a d IH]; simpl.
  - destruct r; [contradiction | reflexivity].
  - rewrite String.eqb_refl. exact IH.
Qed.

Lemma strictly_below_ext d p r : strictly_below d p = true -> strictly_below d (p ++ r) = true.
Proof.
  revert p. induction d as [|a d IH]; intros [|b p]; simpl; try discriminate; [reflexivity|].
  intros H. apply andb_prop in H. destruct H as [Ha Hp]. rewrite Ha. apply IH, Hp.
Qed.

Lemma existsb_map_in {A B} (f : A -> B) (g : B -> bool) (h : A -> bool) l :
  (forall x, In x l -> g (f x) = h x) -> existsb g (map f l) = existsb h l.
Proof.
  induction l as [|x l IH]; simpl; intros H; [reflexivity|].
  rewrite (H x (or_introl eq_refl)), IH; [reflexivity|]. intros y Hy. apply H. right. exact Hy.
Qed.

Lemma filter_map_in {A} (f : A -> A) (g : A -> bool) l :
  (forall x, In x l -> g (f x) = g x /\ (g x = true -> f x = x)) ->
  filter g (map f l) = filter g l.
Proof.
  induction l as [|x l IH]; simpl; intros H; [reflexivity|].
  destruct (H x (or_introl eq_refl)) as [Hg Hf]. rewrite Hg.
  rewrite IH by (intros y Hy; apply H; right; exact Hy).
  destruct (g x) eqn:E; [rewrite (Hf eq_refl)|]; reflexivity.
Qed.

Lemma filter_none {A} (g : A -> bool) l :
  (forall x, In x l -> g x = false) -> filter g l = [].
Proof.
  induction l as [|x l IH]; simpl; intros H; [reflexivity|].
  rewrite (H x (or_introl eq_refl)). apply IH. intros y Hy. apply H. right. exact Hy.
Qed.

Definition entry_is_dir (e : FsEntry) : bool := match e with Dir => true | _ => false end.

Lemma is_dir_in fs p e : is_dir fs p = false -> In (p, e) fs -> entry_is_dir e = false.
Proof.
  intros Hd Hin. unfold is_dir in Hd. destruct e; try reflexivity. exfalso.
  eapply Bool.eq_true_false_abs; [|exact Hd].
  apply existsb_exists. exists (p, Dir). split; [exact Hin|]. simpl.
  rewrite path_eqb_refl. reflexivity.
Qed.

(** The directories [mkdir] creates are appended, each on the way to the
    target. *)
Lemma mkdir_parents_added can_write fs above rest fs' :
  mkdir_parents can_write fs above rest = Ok fs' ->
  exists added, fs' = fs ++ added
    /\ forall p e, In (p, e) added -> e = Dir /\ exists q, (above ++ rest)%list = (p ++ q)%list.
Proof.
  revert fs above. induction rest as [|c more IH]; simpl; intros fs above H.
  - injection H as <-. exists []. split; [symmetry; apply app_nil_r | intros p e []].
  - destruct (is_dir fs (above ++ [c])).
    + destruct (IH _ _ H) as [added [-> Hadd]]. exists added. split; [reflexivity|].
      intros p e Hin. destruct (Hadd p e Hin) as [He [q Hq]]. split; [exact He|].
      exists q. rewrite <- Hq, <- app_assoc. reflexivity.
    + destruct (has_entry fs (above ++ [c])); [discriminate|].
      destruct (can_write (above ++ [c])); [|discriminate].
      destruct (IH _ _ H) as [added [-> Hadd]]. exists (((above ++ [c])%list, Dir) :: added).
      split; [rewrite <- app_assoc; reflexivity|].
      intros p e [Heq|Hin].
      * injection Heq as <- <-. split; [reflexivity|]. exists more.
        rewrite <- app_assoc. reflexivity.
      * destruct (Hadd p e Hin) as [He [q Hq]]. split; [exact He|].
        exists q. rewrite <- Hq, <- app_assoc. reflexivity.
Qed.

Lemma mkdir_parents_raise can_write fs above rest e :
  mkdir_parents can_write fs above rest = Raise e -> e = OSError.
Proof.
  revert fs above. induction rest as [|c more IH]; simpl; intros fs above H; [discriminate|].
  destruct (is_dir fs (above ++ [c])); [exact (IH _ _ H)|].
  destruct (has_entry fs (above ++ [c])); [injection H as <-; reflexivity|].
  destruct (can_write (above ++ [c])); [exact (IH _ _ H) | injection H as <-; reflexivity].
Qed.

Lemma write_text_raise can_write fs p t e :
  write_text can_write fs p t = Raise e -> e = OSError.
Proof.
  unfold write_text. destruct p as [|c p]; [intros H; injection H as <-; reflexivity|].
  destruct (is_dir fs (c :: p)); [intros H; injection H as <-; reflexivity|].
  destruct (can_write (c :: p)); [|intros H; injection H as <-; reflexivity].
  destruct (has_entry fs (c :: p)); discriminate.
Qed.

(** Creating the parents of [out] leaves the listing under [dir] as it
    was, when [out] is not below [dir]. *)
Lemma mkdir_parents_rglob can_write fs out fs' dir :
  out <> [] -> strictly_below dir out = false ->
  mkdir_parents can_write fs [] (removelast out) = Ok fs' ->
  rglob_tf fs' dir = rglob_tf fs dir.
Proof.
  intros Hne Hb H. destruct (mkdir_parents_added _ _ _ _ _ H) as [added [-> Hadd]].
  simpl in Hadd.
  assert (Hout : out = (removelast out ++ [last out ""])%list)
    by (apply app_removelast_last; exact Hne).
  assert (Hbelow : forall p e, In (p, e) added ->
            e = Dir /\ exists r, out = (p ++ r)%list /\ r <> []).
  { intros p e Hin. destruct (Hadd p e Hin) as [He [q Hq]]. split; [exact He|].
    exists (q ++ [last out ""])%list. split.
    - rewrite Hout at 1. rewrite Hq, <- app_assoc. reflexivity.
    - destruct q; discriminate. }
  assert (Hd : is_dir (fs ++ added) dir = is_dir fs dir).
  { unfold is_dir. rewrite existsb_app.
    assert (Hn : existsb (fun pe => path_eqb (fst pe) dir
                          && match snd pe with Dir => true | _ => false end) added = false).
    { apply Bool.not_true_is_false. intros Hx. apply existsb_exists in Hx.
      destruct Hx as [[p e] [Hin Hx]]. apply andb_prop in Hx. destruct Hx as [Hx _].
      apply path_eqb_eq in Hx. simpl in Hx. subst p.
      destruct (Hbelow dir e Hin) as [_ [r [Hr Hne']]].
      rewrite Hr, strictly_below_app in Hb by exact Hne'. discriminate. }
    rewrite Hn. apply orb_false_r. }
  unfold rglob_tf. rewrite Hd. destruct (is_dir fs dir); [|reflexivity].
  rewrite filter_app.
  assert (Hn : filter (fun pe => strictly_below dir (fst pe) && ends_with_tf (last (fst pe) ""))
                 added = []).
  { apply filter_none. intros [p e] Hin. simpl.
    destruct (strictly_below dir p) eqn:Hs; [|reflexivity]. exfalso.
    destruct (Hbelow p e Hin) as [_ [r [Hr _]]].
    rewrite Hr, (strictly_below_ext dir p r Hs) in Hb. discriminate. }
  rewrite Hn. apply app_nil_r.
Qed.

Lemma written_entry_not_dir old t : entry_is_dir (written_entry old t) = false.
Proof. destruct old as [| |[]]; reflexivity. Qed.

(** Writing [out] leaves the listing under [dir] as it was, when [out] is
    not below [dir]. *)
Lemma write_text_rglob can_write fs out t fs' dir :
  strictly_below dir out = false ->
  write_text can_write fs out t = Ok fs' ->
  rglob_tf fs' dir = rglob_tf fs dir.
Proof.
  intros Hb. unfold write_text. destruct out as [|c o]; [discriminate|].
  destruct (is_dir fs (c :: o)) eqn:Hod; [discriminate|].
  destruct (can_write (c :: o)); [|discriminate].
  destruct (has_entry fs (c :: o)); intros H; injection H as <-; unfold rglob_tf.
  - assert (Hd : is_dir (map (fun qe => if path_eqb (fst qe) (c :: o)
                                     then (fst qe, written_entry (snd qe) t) else qe) fs) dir
                 = is_dir fs dir).
    { unfold is_dir. apply existsb_map_in. intros [q e] Hin. simpl.
      destruct (path_eqb q (c :: o)) eqn:Hq; [|reflexivity]. simpl.
      apply path_eqb_eq in Hq. subst q.
      pose proof (is_dir_in fs _ e Hod Hin) as He.
      pose proof (written_entry_not_dir e t) as Hw.
      destruct (written_entry e t), e; simpl in *; try discriminate; rewrite ?andb_false_r;
        reflexivity. }
    rewrite Hd. destruct (is_dir fs dir); [|reflexivity].
    apply filter_map_in. intros [q e] Hin. simpl.
    destruct (path_eqb q (c :: o)) eqn:Hq; [|split; reflexivity].
    apply path_eqb_eq in Hq. subst q. simpl. rewrite Hb. split; [reflexivity | discriminate].
  - unfold is_dir at 1. rewrite existsb_app. simpl existsb. rewrite andb_false_r, orb_false_r.
    fold (is_dir fs dir). destruct (is_dir fs dir); [|reflexivity].
    rewrite filter_app. simpl. rewrite Hb. apply app_nil_r.
Qed.

(** The whole write of [save_to_json]. *)
Lemma save_write_rglob can_write fs out t fs1 fs2 dir :
  strictly_below dir out = false ->
  mkdir_parents can_write fs [] (removelast out) = Ok fs1 ->
  write_text can_write fs1 out t = Ok fs2 ->
  rglob_tf fs2 dir = rglob_tf fs dir.
Proof.
  intros Hb E H. destruct out as [|c o]; [discriminate|].
  rewrite (write_text_rglob _ _ _ _ _ _ Hb H).
  apply (mkdir_parents_rglob can_write fs (c :: o)); [discriminate | exact Hb | exact E].
Qed.

(** [parse_directory] reads the tree only through the listing of its
    directory. *)
Lemma parse_directory_same_listing py_set_list hcl2_loads fs fs' st :
  rglob_tf fs' (terraform_dir st) = rglob_tf fs (terraform_dir st) ->
  parse_directory py_set_list hcl2_loads fs' st = parse_directory py_set_list hcl2_loads fs st.
Proof. intros H. unfold parse_directory. rewrite H. reflexivity. Qed.

(** C3 (amended): for a path that is not an existing directory (missing,
    or a file), [parse_directory] on a fresh parser does not fail: it
    returns the empty GraphResult. [parse_terraform] then writes and returns
    that empty result, unless the write itself raises [OSError] (the output
    path lies below [dir] is excluded: the written file can then be listed).
    Only the HTTP route checks the path: it answers 404 for a path that does
    not exist, and for an existing file it returns the empty result (or a
    500 reply for a failed write). *)
Theorem not_a_directory_gives_empty_graph py_set_list hcl2_loads can_write fs dir out :
  is_dir fs dir = false ->
  parse_directory py_set_list hcl2_loads fs (init_parser dir)
    = Ok (init_parser dir, empty_graph)
  /\ (strictly_below dir out = false ->
      parse_terraform py_set_list hcl2_loads can_write fs dir out
        = Ok (empty_graph, empty_graph)
      \/ parse_terraform py_set_list hcl2_loads can_write fs dir out = Raise OSError)
  /\ (forall rejects_non_json resolve kvs d,
        dict_get "directory" kvs = Some (VStr d) ->
        resolve (Api.map_directory d) = dir ->
        (path_exists fs dir = false ->
         Api.parse_terraform_directory py_set_list hcl2_loads can_write rejects_non_json
           resolve fs (Api.Json (VDict kvs))
         = Ok (Api.ErrorReply 404
                 ("Directory " ++ Api.map_directory d ++ " does not exist")%string))
        /\ (path_exists fs dir = true ->
            Api.parse_terraform_directory py_set_list hcl2_loads can_write rejects_non_json
              resolve fs (Api.Json (VDict kvs))
            = Ok (Api.Success empty_graph (Api.map_directory d))
            \/ Api.parse_terraform_directory py_set_list hcl2_loads can_write rejects_non_json
                  resolve fs (Api.Json (VDict kvs))
                = Ok (Api.Failure 500 OSError))).
Proof.
  intros Hd.
  assert (Hp : forall fs', rglob_tf fs' dir = rglob_tf fs dir ->
               parse_directory py_set_list hcl2_loads fs' (init_parser dir)
               = Ok (init_parser dir, empty_graph)).
  { intros fs' Hg. unfold parse_directory. simpl terraform_dir. rewrite Hg.
    unfold rglob_tf. rewrite Hd. reflexivity. }
  split; [exact (Hp fs eq_refl)|]. split.
  - intros Hb. unfold parse_terraform, save_to_json. rewrite init_layout, (Hp fs eq_refl).
    cbn [res_bind].
    destruct (mkdir_parents can_write fs [] (removelast out)) as [fs1|e] eqn:Em;
      cbn [res_bind].
    2:{ right. rewrite (mkdir_parents_raise _ _ _ _ _ Em). reflexivity. }
    destruct (write_text can_write fs1 out (json_text empty_graph)) as [fs2|e] eqn:Ew;
      cbn [res_bind].
    2:{ right. rewrite (write_text_raise _ _ _ _ _ Ew). reflexivity. }
    left. rewrite (Hp fs2 (save_write_rglob _ _ _ _ _ _ _ Hb Em Ew)). reflexivity.
  - intros rejects_non_json resolve kvs d Hget Hres.
    assert (Ht : Api.py_truthy (VDict kvs) = true)
      by (destruct kvs; [discriminate | reflexivity]).
    unfold Api.parse_terraform_directory. rewrite Ht. cbn [negb].
    unfold Api.contains_directory, Api.get_directory. rewrite Hget. cbn [res_bind negb].
    rewrite Hres. split.
    + intros He. rewrite He. reflexivity.
    + intros He. rewrite He. cbn [negb].
      unfold Api.parse_terraform, save_to_json. rewrite (Hp fs eq_refl). cbn [res_bind].
      rewrite init_layout, (Hp fs eq_refl). cbn [res_bind].
      destruct (mkdir_parents can_write fs [] (removelast (resolve "work/build/tf_entities.json")))
        as [fs1|e] eqn:Em; cbn [res_bind].
      2:{ right. rewrite (mkdir_parents_raise _ _ _ _ _ Em). reflexivity. }
      destruct (write_text can_write fs1 (resolve "work/build/tf_entities.json")
                  (json_text empty_graph)) as [fs2|e] eqn:Ew; cbn [res_bind].
      2:{ right. rewrite (write_text_raise _ _ _ _ _ Ew). reflexivity. }
      left. reflexivity.
Qed.

Lemma not_a_directory_gives_empty_graph_witness :
  is_dir sample_fs ["tf"; "missing"] = false
  /\ parse_directory dedup sample_loads sample_fs (init_parser ["tf"; "missing"])
     = Ok (init_parser ["tf"; "missing"], empty_graph)
  /\ parse_terraform dedup sample_loads all_writable sample_fs ["tf"; "missing"] ["out.json"]
     = Ok (empty_graph, empty_graph)
  /\ Api.parse_terraform_directory dedup sample_loads all_writable true
       (fun _ => ["tf"; "missing"]) sample_fs (Api.Json (VDict [("directory", VStr "tf/missing")]))
     = Ok (Api.ErrorReply 404 "Directory tf/missing does not exist").
Proof.
  assert (Hd : is_dir sample_fs ["tf"; "missing"] = false) by reflexivity.
  destruct (not_a_directory_gives_empty_graph dedup sample_loads all_writable sample_fs
              ["tf"; "missing"] ["out.json"] Hd) as [Hp [Ht Hr]].
  split; [exact Hd|]. split; [exact Hp|]. split.
  - destruct (Ht eq_refl) as [H|H]; [exact H|]. vm_compute in H. discriminate H.
  - exact (proj1 (Hr true (fun _ => ["tf"; "missing"]) [("directory", VStr "tf/missing")]
                    "tf/missing" eq_refl eq_refl) eq_refl).
Defined.

(** The output file below the scanned directory: [tf/missing/graph.tf]
    creates the missing directory, and the final scan lists the written
    file (which the loader rejects), so the returned result counts one file
    while the persisted one counts none. *)
Lemma output_below_directory_listed :
  match parse_terraform dedup sample_loads all_writable sample_fs ["tf"; "missing"]
          ["tf"; "missing"; "graph.tf"] with
  | Ok (persisted, returned) =>
      total_files (g_metadata persisted) = 0%nat /\ total_files (g_metadata returned) = 1%nat
  | Raise _ => False
  end.
Proof. vm_compute. split; reflexivity. Qed.

(** C5 (amended): after [parse_directory] (from a state where this already
    holds) every entity's dependencies are duplicate-free, and they are
    exactly what [_extract_dependencies] returns for the entity's
    attributes (empty for variables and providers): nothing, the entity's
    own identifier included, is filtered out. *)
Theorem entity_dependencies_dedup_unfiltered py_set_list hcl2_loads fs st st' r :
  set_list_spec py_set_list ->
  (forall k e, In (k, e) (entities st) ->
     NoDup (dependencies e)
     /\ (((category e = "variable" \/ category e = "provider") /\ dependencies e = [])
         \/ ((category e <> "variable" /\ category e <> "provider")
             /\ extract_dependencies py_set_list (attributes e) = Ok (dependencies e)))) ->
  parse_directory py_set_list hcl2_loads fs st = Ok (st', r) ->
  Forall (fun e =>
     NoDup (dependencies e)
     /\ (((category e = "variable" \/ category e = "provider") /\ dependencies e = [])
         \/ ((category e <> "variable" /\ category e <> "provider")
             /\ extract_dependencies py_set_list (attributes e) = Ok (dependencies e))))
    (g_entities r).
Proof.
  intros Hset Hinv Hp.
  destruct (parse_directory_steps py_set_list hcl2_loads fs st st' r Hp) as [Hs ->].
  apply Forall_forall. intros e He. simpl in He.
  apply in_map_snd in He. destruct He as [k Hin].
  revert k e Hin. eapply entities_preserve; [| exact Hs | exact Hinv].
  intros k e deps kind Hg.
  destruct Hg as (_ & _ & Hdeps & Hshape & _). rewrite Hdeps. split; [|exact Hshape].
  destruct Hshape as [[_ ->]|[_ Hx]]; [constructor|].
  destruct (extract_dependencies_shape py_set_list _ _ Hx) as [xs ->]. apply Hset.
Qed.

Lemma entity_dependencies_dedup_unfiltered_witness :
  match parse_directory dedup sample_loads sample_fs_self_ref (init_parser ["tf"]) with
  | Ok (_, r) =>
      Forall (fun e =>
        NoDup (dependencies e)
        /\ (((category e = "variable" \/ category e = "provider") /\ dependencies e = [])
            \/ ((category e <> "variable" /\ category e <> "provider")
                /\ extract_dependencies dedup (attributes e) = Ok (dependencies e))))
        (g_entities r)
  | Raise _ => False
  end.
Proof.
  destruct (parse_directory dedup sample_loads sample_fs_self_ref (init_parser ["tf"]))
    as [[st' r]|e] eqn:E.
  - refine (entity_dependencies_dedup_unfiltered dedup sample_loads sample_fs_self_ref
              (init_parser ["tf"]) st' r dedup_spec _ E).
    simpl. intros k e [].
  - vm_compute in E. discriminate E.
Defined.

(** C8: a directory whose [*.tf] listing is one well-formed file and one
    file the loader rejects with a syntax error (in either order): a fresh
    parser's [parse_directory] returns normally, counts 2 files, and its
    entities and relationships are exactly those of the well-formed file. *)
Theorem malformed_file_isolated py_set_list hcl2_loads fs dir good gc bad bc err st_good :
  rglob_tf fs dir = [(good, File gc); (bad, File bc)]
  \/ rglob_tf fs dir = [(bad, File bc); (good, File gc)] ->
  hcl2_loads bc = Raise err -> is_caught err = true ->
  parse_file py_set_list hcl2_loads (init_parser dir) (File gc) = Ok st_good ->
  parse_directory py_set_list hcl2_loads fs (init_parser dir)
  = Ok (st_good,
        mkGraph (map snd (entities st_good)) (relationships st_good)
          (mkMeta 2 (length (entities st_good)) (length (relationships st_good)))).
Proof.
  intros Hglob Hbad Hcaught Hgood. unfold parse_directory. simpl terraform_dir.
  destruct Hglob as [Hg|Hg]; rewrite Hg; simpl.
  - rewrite Hgood. simpl.
    rewrite (parse_file_caught py_set_list hcl2_loads st_good bc err Hbad Hcaught).
    reflexivity.
  - rewrite (parse_file_caught py_set_list hcl2_loads (init_parser dir) bc err Hbad Hcaught).
    simpl. rewrite Hgood. reflexivity.
Qed.

Definition main_tf_state : ParserState :=
  match parse_file dedup sample_loads (init_parser ["tf"]) (File main_tf) with
  | Ok st => st
  | Raise _ => init_parser ["tf"]
  end.

Lemma malformed_file_isolated_witness :
  parse_directory dedup sample_loads sample_fs_broken (init_parser ["tf"])
  = Ok (main_tf_state,
        mkGraph (map snd (entities main_tf_state)) (relationships main_tf_state)
          (mkMeta 2 (length (entities main_tf_state))
                    (length (relationships main_tf_state)))).
Proof.
  apply (malformed_file_isolated dedup sample_loads sample_fs_broken ["tf"]
           ["tf"; "main.tf"] main_tf ["tf"; "broken.tf"] broken_tf LarkError).
  - right. vm_compute. reflexivity.
  - vm_compute. reflexivity.
  - reflexivity.
  - vm_compute. reflexivity.
Defined.

(** C9: in the GraphResult of [parse_directory] (from a fresh parser, or
    any state where the kinds already follow the rule), a relationship whose
    source entity is an output has kind [references], and one whose source
    entity has any other category has kind [depends_on]. *)
Theorem relationship_kind_by_source_category py_set_list hcl2_loads fs st st' r :
  edge_kind_inv st ->
  parse_directory py_set_list hcl2_loads fs st = Ok (st', r) ->
  forall rel ent, In rel (g_relationships r) -> In ent (g_entities r) ->
  id ent = source rel ->
  (category ent = "output" -> rtype rel = "references")
  /\ (category ent <> "output" -> rtype rel = "depends_on").
Proof.
  intros Hinv Hp rel ent Hrel Hent Hsrc.
  destruct (parse_directory_steps py_set_list hcl2_loads fs st st' r Hp) as [Hs ->].
  destruct (edge_kind_inv_steps py_set_list st st' Hs Hinv) as [He Hr].
  simpl in Hrel, Hent. apply in_map_snd in Hent. destruct Hent as [k Hk].
  destruct (He k ent Hk) as [-> Hcat].
  destruct (Hr rel Hrel) as [[Hkind Hpre]|[Hkind Hpre]]; rewrite Hkind.
  - split; [reflexivity|]. intros Hne. exfalso. apply Hne, Hcat.
    rewrite Hsrc. exact Hpre.
  - split; [|reflexivity]. intros Hout. apply Hcat in Hout.
    rewrite Hsrc, Hpre in Hout. discriminate Hout.
Qed.

Lemma relationship_kind_by_source_category_witness :
  edge_kind_inv (init_parser ["tf"])
  /\ match parse_directory dedup sample_loads sample_fs (init_parser ["tf"]) with
     | Ok (_, r) =>
         forall rel ent, In rel (g_relationships r) -> In ent (g_entities r) ->
         id ent = source rel ->
         (category ent = "output" -> rtype rel = "references")
         /\ (category ent <> "output" -> rtype rel = "depends_on")
     | Raise _ => False
     end.
Proof.
  assert (Hinv : edge_kind_inv (init_parser ["tf"])).
  { split; simpl; intros; contradiction. }
  split; [exact Hinv|].
  destruct (parse_directory dedup sample_loads sample_fs (init_parser ["tf"]))
    as [[st' r]|e] eqn:E.
  - exact (relationship_kind_by_source_category dedup sample_loads sample_fs
             (init_parser ["tf"]) st' r Hinv E).
  - vm_compute in E. discriminate E.
Defined.

(** C10: [parse_terraform] runs [calculate_layout] on the still empty
    registry (where it changes nothing), so no entity of the persisted
    document nor of the returned one has a position. *)
Theorem parse_terraform_positions_unset py_set_list hcl2_loads can_write fs dir out :
  calculate_layout (init_parser dir) = init_parser dir
  /\ match parse_terraform py_set_list hcl2_loads can_write fs dir out with
     | Ok (persisted, returned) =>
         Forall (fun e => position e = None) (g_entities persisted)
         /\ Forall (fun e => position e = None) (g_entities returned)
     | Raise _ => True
     end.
Proof.
  split; [apply init_layout|].
  unfold parse_terraform, save_to_json. rewrite init_layout.
  destruct (parse_directory py_set_list hcl2_loads fs (init_parser dir))
    as [[st1 r1]|e] eqn:E1; cbn [res_bind]; [|exact I].
  destruct (mkdir_parents can_write fs [] (removelast out)) as [fs1|e];
    cbn [res_bind]; [|exact I].
  destruct (write_text can_write fs1 out (json_text r1)) as [fs2|e];
    cbn [res_bind]; [|exact I].
  destruct (parse_directory py_set_list hcl2_loads fs2 st1) as [[st2 r2]|e] eqn:E2;
    cbn [res_bind]; [|exact I].
  destruct (parse_directory_steps py_set_list hcl2_loads fs _ _ _ E1) as [Hs1 ->].
  destruct (parse_directory_steps py_set_list hcl2_loads fs2 _ _ _ E2) as [Hs2 ->].
  assert (H1 : forall k e, In (k, e) (entities st1) -> position e = None).
  { apply (positions_unset_steps py_set_list (init_parser dir)); [exact Hs1|].
    simpl. intros k e []. }
  assert (H2 : forall k e, In (k, e) (entities st2) -> position e = None).
  { apply (positions_unset_steps py_set_list st1); [exact Hs2 | exact H1]. }
  simpl. split; apply Forall_forall; intros e He; apply in_map_snd in He;
    destruct He as [k Hk]; eauto.
Qed.

(** ** The dependency set of one block ([_extract_dependencies]) *)

Lemma scan_items_in py_set_list kvs found x :
  scan_items py_set_list (extract_dependencies py_set_list) kvs = Ok found ->
  (In x found <->
   exists k v r, In (k, v) kvs
     /\ scan_value py_set_list (extract_dependencies py_set_list) v = Ok r /\ In x r).
Proof.
  revert found. induction kvs as [|[k v] more IH]; simpl; intros found H.
  - injection H as <-. split; [intros []|]. intros (k & v & r & [] & _).
  - destruct (scan_value py_set_list (extract_dependencies py_set_list) v)
      as [here|e] eqn:Ev; simpl in H; [|discriminate].
    destruct (scan_items py_set_list (extract_dependencies py_set_list) more)
      as [there|e] eqn:Em; simpl in H; [|discriminate].
    injection H as <-. specialize (IH there eq_refl). rewrite in_app_iff, IH.
    split.
    + intros [Hx|(k' & v' & r & Hin & Hs & Hx)].
      * exists k, v, here. auto.
      * exists k', v', r. auto.
    + intros (k' & v' & r & [Heq|Hin] & Hs & Hx).
      * injection Heq as -> ->. rewrite Ev in Hs. injection Hs as <-. left; exact Hx.
      * right. exists k', v', r. auto.
Qed.

(** C4 (amended): for a block body (a dict) whose extraction succeeds, the
    dependency set is the union of the string entries of [depends_on], taken
    verbatim, and of what the per-value scan finds in EVERY attribute value,
    [depends_on] itself included. *)
Theorem dependencies_union_all_attributes py_set_list kvs deps :
  set_list_spec py_set_list ->
  extract_dependencies py_set_list (VDict kvs) = Ok deps ->
  exists explicit,
    explicit_depends_on kvs = Ok explicit
    /\ (forall x, In x deps <->
          In x explicit
          \/ exists k v r, In (k, v) kvs
               /\ scan_value py_set_list (extract_dependencies py_set_list) v = Ok r
               /\ In x r).
Proof.
  intros Hset H. simpl in H.
  destruct (explicit_depends_on kvs) as [explicit|e]; simpl in H; [|discriminate].
  destruct (scan_items py_set_list (extract_dependencies py_set_list) kvs)
    as [scanned|e] eqn:Es; simpl in H; [|discriminate].
  injection H as <-. exists explicit. split; [reflexivity|].
  intros x. destruct (Hset (explicit ++ scanned)) as [_ Hin].
  rewrite Hin, in_app_iff, (scan_items_in py_set_list kvs scanned x Es).
  reflexivity.
Qed.

Lemma dependencies_union_all_attributes_witness :
  explicit_depends_on [("depends_on", VList [VStr "${aws_instance.web}"])]
    = Ok ["${aws_instance.web}"]
  /\ (forall x, In x ["${aws_instance.web}"; "resource.aws_instance.web"] <->
        In x ["${aws_instance.web}"]
        \/ exists k v r, In (k, v) [("depends_on", VList [VStr "${aws_instance.web}"])]
             /\ scan_value dedup (extract_dependencies dedup) v = Ok r /\ In x r).
Proof.
  destruct (dependencies_union_all_attributes dedup
              [("depends_on", VList [VStr "${aws_instance.web}"])]
              ["${aws_instance.web}"; "resource.aws_instance.web"]
              dedup_spec ltac:(vm_compute; reflexivity))
    as [explicit [He Hx]].
  assert (Hex : explicit = ["${aws_instance.web}"]).
  { vm_compute in He. injection He as <-. reflexivity. }
  rewrite Hex in He, Hx. split; [exact He | exact Hx].
Defined.

(** ** The reference patterns on their minimal strings ([_find_references]) *)

Fixpoint all_word (s : string) : bool :=
  match s with
  | EmptyString => true
  | String c rest => is_word c && all_word rest
  end.

(** A non-empty run of [\w] characters. *)
Definition is_name (s : string) : bool :=
  negb (String.eqb s EmptyString) && all_word s.

Fixpoint has_dot (s : string) : bool :=
  match s with
  | EmptyString => false
  | String c rest => Ascii.eqb c "." || has_dot rest
  end.


Lemma str_app_assoc (a b c : string) : ((a ++ b) ++ c)%string = (a ++ b ++ c)%string.
Proof. induction a; simpl; [reflexivity | rewrite IHa; reflexivity]. Qed.

Lemma has_dot_app a b : has_dot (a ++ b) = has_dot a || has_dot b.
Proof. induction a; simpl; [reflexivity | rewrite IHa, orb_assoc; reflexivity]. Qed.






Lemma word_span_all s : all_word s = true -> word_span s = (s, EmptyString).
Proof.
  induction s as [|c s IH]; simpl; [reflexivity|]. intros H.
  apply andb_prop in H as [H1 H2]. rewrite H1, IH by exact H2. reflexivity.
Qed.

Lemma word_span_dot s r :
  all_word s = true -> word_span (s ++ String "." r) = (s, String "." r).
Proof.
  induction s as [|c s IH]; simpl; [reflexivity|]. intros H.
  apply andb_prop in H as [H1 H2]. rewrite H1, IH by exact H2. reflexivity.
Qed.

Lemma word_span_app s w r : word_span s = (w, r) -> s = (w ++ r)%string.
Proof.
  revert w r. induction s as [|c s IH]; simpl; intros w r H.
  - injection H as <- <-. reflexivity.
  - destruct (is_word c).
    + destruct (word_span s) as [w' r'] eqn:E. injection H as <- <-.
      simpl. rewrite (IH w' r' eq_refl). reflexivity.
    + injection H as <- <-. reflexivity.
Qed.

Lemma prefix_app l s : String.prefix l (l ++ s) = true.
Proof. induction l as [|c l IH]; simpl; [apply prefix_empty|].
  destruct (ascii_dec c c) as [_|n]; [exact IH | contradiction n; reflexivity]. Qed.

Lemma substring_all s : substring 0 (String.length s) s = s.
Proof. induction s; simpl; [reflexivity | rewrite IHs; reflexivity]. Qed.

Lemma substring_app l s :
  substring (String.length l) (String.length (l ++ s) - String.length l) (l ++ s) = s.
Proof.
  induction l as [|c l IH]; simpl.
  - rewrite Nat.sub_0_r. apply substring_all.
  - exact IH.
Qed.

Lemma has_dot_substring n m s : has_dot (substring n m s) = true -> has_dot s = true.
Proof.
  revert n m. induction s as [|c s IH]; intros n m; simpl.
  - destruct n, m; simpl; discriminate.
  - destruct n as [|n].
    + destruct m as [|m]; simpl; [discriminate|].
      intros H. apply orb_prop in H as [H|H]; [rewrite H; reflexivity|].
      rewrite (IH 0 m H). apply orb_true_r.
    + intros H. rewrite (IH n m H). apply orb_true_r.
Qed.

Lemma prefix_has_dot l s :
  String.prefix l s = true -> has_dot l = true -> has_dot s = true.
Proof.
  revert s. induction l as [|c l IH]; intros s; [discriminate 2|].
  destruct s as [|d s]; simpl; [discriminate|].
  destruct (ascii_dec c d) as [<-|]; [|discriminate].
  intros Hp Hd. apply orb_prop in Hd as [Hd|Hd]; [rewrite Hd; reflexivity|].
  rewrite (IH s Hp Hd). apply orb_true_r.
Qed.

(** Every pattern of the table needs a [.] in the text it matches. *)
Definition needs_dot (p : Pattern) : bool :=
  pat_two_groups p || has_dot (pat_lead p).

Lemma match_at_has_dot p s m :
  needs_dot p = true -> match_at p s = Some m -> has_dot s = true.
Proof.
  intros Hp. unfold match_at.
  destruct (String.prefix (pat_lead p) s) eqn:Hpre; [|discriminate].
  destruct (word_span _) as [w1 r1] eqn:Hw.
  apply word_span_app in Hw.
  destruct (String.eqb w1 EmptyString); [discriminate|].
  unfold needs_dot in Hp. destruct (pat_two_groups p).
  - destruct r1 as [|dot r2]; [discriminate|].
    destruct (Ascii.eqb dot ".") eqn:Hd; [|discriminate]. intros _.
    apply Ascii.eqb_eq in Hd. subst dot.
    eapply has_dot_substring. rewrite Hw, has_dot_app. simpl. apply orb_true_r.
  - intros _. eapply prefix_has_dot; [exact Hpre | exact Hp].
Qed.

Lemma findall_no_dot p k s :
  needs_dot p = true -> has_dot s = false -> findall_from p k s = [].
Proof.
  intros Hp. revert k. induction s as [|c s IH]; intros k Hs; [reflexivity|].
  assert (Hs' := Hs). simpl in Hs'. apply orb_false_iff in Hs' as [_ Hs']. simpl.
  destruct k as [|k]; [|apply IH; exact Hs'].
  destruct (match_at p (String c s)) as [m|] eqn:E.
  - apply (match_at_has_dot p _ m Hp) in E. rewrite Hs in E. discriminate E.
  - apply IH; exact Hs'.
Qed.




Lemma findall_first_match p s g len :
  s <> EmptyString -> match_at p s = Some (g, len) ->
  exists rest, findall p s = g :: rest.
Proof.
  intros Hs Hm. unfold findall. destruct s as [|c r]; [contradiction|].
  simpl. rewrite Hm. eexists; reflexivity.
Qed.

Lemma is_name_parts n : is_name n = true -> n <> EmptyString /\ all_word n = true.
Proof.
  unfold is_name. intros H. apply andb_prop in H as [H1 H2]. split; [|exact H2].
  intros ->. discriminate H1.
Qed.


Lemma match_at_double p t n :
  pat_two_groups p = true -> is_name t = true -> is_name n = true ->
  exists len,
    match_at p (pat_lead p ++ t ++ String "." n)
    = Some ([if pat_lead_in_group p then (pat_lead p ++ t)%string else t; n], len).
Proof.
  intros Htwo Ht Hn. destruct (is_name_parts t Ht) as [Htne Htw].
  destruct (is_name_parts n Hn) as [Hne Hnw].
  unfold match_at. rewrite prefix_app. cbv zeta. rewrite substring_app.
  rewrite (word_span_dot t n Htw).
  destruct (String.eqb t EmptyString) eqn:E;
    [apply String.eqb_eq in E; contradiction|].
  rewrite Htwo. simpl Ascii.eqb. rewrite (word_span_all n Hnw).
  destruct (String.eqb n EmptyString) eqn:E';
    [apply String.eqb_eq in E'; contradiction|].
  eexists. reflexivity.
Qed.


Lemma findall_double p t n :
  pat_two_groups p = true -> pat_lead p <> EmptyString ->
  is_name t = true -> is_name n = true ->
  exists rest, findall p (pat_lead p ++ t ++ String "." n)
    = [if pat_lead_in_group p then (pat_lead p ++ t)%string else t; n] :: rest.
Proof.
  intros Htwo Hl Ht Hn. destruct (match_at_double p t n Htwo Ht Hn) as [len Hm].
  eapply findall_first_match; [| exact Hm].
  destruct (pat_lead p); [contradiction | discriminate].
Qed.


Lemma find_references_in py_set_list p s m r :
  set_list_spec py_set_list -> In p patterns ->
  In m (findall p (remove_close_brace (remove_dollar_brace s))) ->
  In r (ref_of_match p m) -> In r (find_references py_set_list s).
Proof.
  intros Hset Hp Hm Hr. unfold find_references. apply Hset.
  apply in_flat_map. exists p. split; [exact Hp|].
  apply in_flat_map. exists m. split; assumption.
Qed.













(** ** Extraction as a sequence of registry updates

    Every extraction routine performs a list of [add_entity] calls that is
    fixed by its input alone; only the state they are applied to varies. *)

Definition Op : Type := (string * TerraformEntity * list string * string)%type.

Definition apply_op (st : ParserState) (o : Op) : ParserState :=
  match o with (k, e, deps, kind) => add_entity k e deps kind st end.

Definition apply_ops (ops : list Op) (st : ParserState) : ParserState :=
  fold_left apply_op ops st.

Definition run_ops (r : Res (list Op)) (st : ParserState) : Res ParserState :=
  match r with
  | Ok ops => Ok (apply_ops ops st)
  | Raise e => Raise e
  end.

(** The shape of every entity the routines create, by category. *)
Definition op_form (o : Op) : Prop :=
  match o with
  | (k, e, deps, kind) =>
      k = id e /\ position e = None /\ dependencies e = deps
      /\ (((category e = "resource" \/ category e = "data")
           /\ id e = (category e ++ "." ++ type e ++ "." ++ name e)%string
           /\ provider e = Some (first_token (type e)) /\ kind = "depends_on")
          \/ (category e = "module" /\ type e = "module"
              /\ id e = ("module." ++ name e)%string /\ provider e = None
              /\ kind = "depends_on")
          \/ (category e = "variable" /\ type e = "variable"
              /\ id e = ("var." ++ name e)%string /\ provider e = None /\ deps = [])
          \/ (category e = "output" /\ type e = "output"
              /\ id e = ("output." ++ name e)%string /\ provider e = None
              /\ kind = "references")
          \/ (category e = "provider" /\ type e = "provider"
              /\ id e = ("provider." ++ name e)%string /\ provider e = Some (name e)
              /\ deps = []))
  end.

(** Errors the extraction routines themselves raise. *)
Definition extraction_error (e : Exc) : Prop := e = TypeError \/ e = AttributeError.

Definition ops_ok (E : Exc -> Prop) (r : Res (list Op)) : Prop :=
  match r with
  | Ok ops => Forall op_form ops
  | Raise e => E e
  end.

Definition state_free (E : Exc -> Prop) (g : ParserState -> Res ParserState) : Prop :=
  exists r, ops_ok E r /\ forall st, g st = run_ops r st.

Lemma apply_ops_app ops1 ops2 st :
  apply_ops (ops1 ++ ops2) st = apply_ops ops2 (apply_ops ops1 st).
Proof. unfold apply_ops. apply fold_left_app. Qed.

Lemma sf_ok E : state_free E (fun st => Ok st).
Proof. exists (Ok []). split; [constructor | reflexivity]. Qed.

Lemma sf_raise (E : Exc -> Prop) e : E e -> state_free E (fun _ => Raise e).
Proof. intros He. exists (Raise e). split; [exact He | reflexivity]. Qed.

Lemma sf_add E k e deps kind :
  op_form (k, e, deps, kind) ->
  state_free E (fun st => Ok (add_entity k e deps kind st)).
Proof. intros H. exists (Ok [(k, e, deps, kind)]). split; [constructor; [exact H | constructor] | reflexivity]. Qed.

Lemma sf_bind {A} (E : Exc -> Prop) (m : Res A) (g : A -> ParserState -> Res ParserState) :
  (forall e, m = Raise e -> E e) -> (forall a, state_free E (g a)) ->
  state_free E (fun st => res_bind m (fun a => g a st)).
Proof.
  intros Hm Hg. destruct m as [a|e]; simpl.
  - exact (Hg a).
  - apply sf_raise, Hm. reflexivity.
Qed.

Lemma sf_seq E g1 g2 :
  state_free E g1 -> state_free E g2 -> state_free E (fun st => res_bind (g1 st) g2).
Proof.
  intros [r1 [Hok1 H1]] [r2 [Hok2 H2]].
  exists (match r1 with
          | Ok o1 => match r2 with Ok o2 => Ok (o1 ++ o2) | Raise e => Raise e end
          | Raise e => Raise e
          end).
  split.
  - destruct r1 as [o1|e1]; [|exact Hok1]. destruct r2 as [o2|e2]; [|exact Hok2].
    simpl in *. apply Forall_app; split; assumption.
  - intros st. rewrite H1. destruct r1 as [o1|e1]; simpl; [|reflexivity].
    rewrite H2. destruct r2 as [o2|e2]; simpl; [rewrite apply_ops_app|]; reflexivity.
Qed.

Lemma sf_res_fold {A} E (f : ParserState -> A -> Res ParserState) xs :
  (forall x, state_free E (fun st => f st x)) -> state_free E (res_fold f xs).
Proof.
  intros Hf. induction xs as [|x xs IH]; simpl.
  - exists (Ok []). split; [constructor | reflexivity].
  - exact (sf_seq E (fun st => f st x) (res_fold f xs) (Hf x) IH).
Qed.

Lemma sf_ext E g1 g2 : (forall st, g1 st = g2 st) -> state_free E g2 -> state_free E g1.
Proof. intros Heq [r [Hok H]]. exists r. split; [exact Hok|]. intros st. rewrite Heq. apply H. Qed.

(** Induction on [Value] through the lists it holds. *)
Section ValueInd.
Variable P : Value -> Prop.
Hypothesis HStr : forall s, P (VStr s).
Hypothesis HNum : forall n, P (VNum n).
Hypothesis HBool : forall b, P (VBool b).
Hypothesis HNone : P VNone.
Hypothesis HDict : forall kvs, Forall (fun kv => P (snd kv)) kvs -> P (VDict kvs).
Hypothesis HList : forall items, Forall P items -> P (VList items).

Fixpoint value_ind' (v : Value) : P v :=
  match v with
  | VStr s => HStr s
  | VNum n => HNum n
  | VBool b => HBool b
  | VNone => HNone
  | VDict kvs =>
      HDict kvs
        ((fix go (l : list (string * Value)) : Forall (fun kv => P (snd kv)) l :=
            match l with
            | [] => Forall_nil _
            | (k, x) :: rest => @Forall_cons _ (fun kv => P (snd kv)) (k, x) rest
                                  (value_ind' x) (go rest)
            end) kvs)
  | VList items =>
      HList items
        ((fix go (l : list Value) : Forall P l :=
            match l with
            | [] => Forall_nil _
            | x :: rest => Forall_cons x (value_ind' x) (go rest)
            end) items)
  end.
End ValueInd.

Section StateFree.

Variable py_set_list : list string -> list string.
Variable hcl2_loads : string -> Res (list (string * Value)).

Lemma py_iter_err v e : py_iter v = Raise e -> extraction_error e.
Proof. destruct v; simpl; intros H; try discriminate; injection H as <-; left; reflexivity. Qed.

Lemma py_items_err v e : py_items v = Raise e -> extraction_error e.
Proof. destruct v; simpl; intros H; try discriminate; injection H as <-; right; reflexivity. Qed.

Lemma scan_items_err (kvs : list (string * Value)) :
  Forall (fun kv => forall e,
    scan_value py_set_list (extract_dependencies py_set_list) (snd kv) = Raise e ->
    extraction_error e) kvs ->
  forall e, scan_items py_set_list (extract_dependencies py_set_list) kvs = Raise e ->
  extraction_error e.
Proof.
  induction 1 as [|[k v] kvs Hv _ IHk]; simpl; intros e Es; [discriminate|].
  destruct (scan_value py_set_list (extract_dependencies py_set_list) v)
    as [here|e1] eqn:Ev; simpl in Es.
  - destruct (scan_items py_set_list (extract_dependencies py_set_list) kvs)
      as [there|e2] eqn:Ek; simpl in Es; [discriminate|].
    injection Es as <-. exact (IHk e2 eq_refl).
  - injection Es as <-. exact (Hv e1 Ev).
Qed.

Lemma extract_dependencies_err_both c :
  (forall e, extract_dependencies py_set_list c = Raise e -> extraction_error e)
  /\ (forall e, scan_value py_set_list (extract_dependencies py_set_list) c = Raise e ->
        extraction_error e).
Proof.
  induction c as [s|n|b| |kvs IH|items IH] using value_ind'.
  - split; intros e H; simpl in H; [|discriminate].
    destruct (str_contains "depends_on" s); injection H as <-; [left|right]; reflexivity.
  - split; intros e H; simpl in H; [injection H as <-; left; reflexivity | discriminate].
  - split; intros e H; simpl in H; [injection H as <-; left; reflexivity | discriminate].
  - split; intros e H; simpl in H; [injection H as <-; left; reflexivity | discriminate].
  - assert (Hd : forall e, extract_dependencies py_set_list (VDict kvs) = Raise e ->
                   extraction_error e).
    { intros e H. simpl in H.
      destruct (explicit_depends_on kvs) as [ex|e'] eqn:Ex; simpl in H.
      2:{ injection H as <-. unfold explicit_depends_on in Ex.
          destruct (dict_get "depends_on" kvs) as [v|]; [|discriminate].
          destruct v; simpl in Ex; try discriminate; injection Ex as <-; left; reflexivity. }
      destruct (scan_items py_set_list (extract_dependencies py_set_list) kvs)
        as [sc|e'] eqn:Es; simpl in H; [discriminate|]. injection H as <-.
      apply (scan_items_err kvs); [|exact Es].
      eapply Forall_impl; [|exact IH]. intros kv [_ H2]. exact H2. }
    split; [exact Hd|]. intros e H. unfold scan_value in H. exact (Hd e H).
  - split.
    { intros e H; simpl in H.
      destruct (existsb _ items); injection H as <-; [left|right]; reflexivity. }
    intros e H. unfold scan_value in H. revert e H.
    induction IH as [|it items [Hit _] _ IHi]; intros e H; simpl in H; [discriminate|].
    destruct (match it with
              | VStr s => Ok (find_references py_set_list s)
              | VDict _ => extract_dependencies py_set_list it
              | _ => Ok []
              end) as [h|e3] eqn:Eh; simpl in H.
    + destruct (scan_list py_set_list (extract_dependencies py_set_list) items)
        as [t|e4] eqn:Et; simpl in H; [discriminate|].
      injection H as <-. exact (IHi e4 eq_refl).
    + injection H as <-. destruct it; try discriminate. exact (Hit _ Eh).
Qed.

Lemma extract_dependencies_err c e :
  extract_dependencies py_set_list c = Raise e -> extraction_error e.
Proof. exact (proj1 (extract_dependencies_err_both c) e). Qed.

Lemma sf_weaken (E1 E2 : Exc -> Prop) g :
  (forall e, E1 e -> E2 e) -> state_free E1 g -> state_free E2 g.
Proof.
  intros Himp [r [Hok H]]. exists r. split; [|exact H].
  destruct r; simpl in *; [exact Hok | apply Himp, Hok].
Qed.

Ltac sf_bind_with lem :=
  apply sf_bind; [intros ?e ?He; eapply lem; exact He | intros ?a].

Lemma extract_typed_sf cat v :
  cat = "resource" \/ cat = "data" ->
  state_free extraction_error (extract_typed py_set_list cat v).
Proof.
  intros Hcat. unfold extract_typed.
  sf_bind_with py_iter_err. apply sf_res_fold. intros block.
  sf_bind_with py_items_err. apply sf_res_fold. intros [bt instances].
  cbv beta iota zeta.
  sf_bind_with py_items_err. apply sf_res_fold. intros [nm config].
  cbv beta iota zeta.
  sf_bind_with extract_dependencies_err. apply sf_add. simpl.
  split; [reflexivity|]. split; [reflexivity|]. split; [reflexivity|].
  left. repeat split; auto.
Qed.

Lemma extract_modules_sf v :
  state_free extraction_error (extract_modules py_set_list v).
Proof.
  unfold extract_modules.
  sf_bind_with py_iter_err. apply sf_res_fold. intros block.
  sf_bind_with py_items_err. apply sf_res_fold. intros [nm config].
  cbv beta iota zeta.
  sf_bind_with extract_dependencies_err. apply sf_add. simpl.
  split; [reflexivity|]. split; [reflexivity|]. split; [reflexivity|].
  right; left. repeat split.
Qed.

Lemma extract_variables_sf v : state_free extraction_error (extract_variables v).
Proof.
  unfold extract_variables.
  sf_bind_with py_iter_err. apply sf_res_fold. intros block.
  sf_bind_with py_items_err. apply sf_res_fold. intros [nm config].
  cbv beta iota zeta. apply sf_add. simpl.
  split; [reflexivity|]. split; [reflexivity|]. split; [reflexivity|].
  right; right; left. repeat split.
Qed.

Lemma extract_outputs_sf v :
  state_free extraction_error (extract_outputs py_set_list v).
Proof.
  unfold extract_outputs.
  sf_bind_with py_iter_err. apply sf_res_fold. intros block.
  sf_bind_with py_items_err. apply sf_res_fold. intros [nm config].
  cbv beta iota zeta.
  sf_bind_with extract_dependencies_err. apply sf_add. simpl.
  split; [reflexivity|]. split; [reflexivity|]. split; [reflexivity|].
  right; right; right; left. repeat split.
Qed.

Lemma extract_providers_sf v : state_free extraction_error (extract_providers v).
Proof.
  unfold extract_providers.
  sf_bind_with py_iter_err. apply sf_res_fold. intros block.
  sf_bind_with py_items_err. apply sf_res_fold. intros [nm config].
  cbv beta iota zeta. apply sf_add. simpl.
  split; [reflexivity|]. split; [reflexivity|]. split; [reflexivity|].
  right; right; right; right. repeat split.
Qed.

Lemma when_present_sf E key parsed f :
  (forall v, state_free E (f v)) -> state_free E (when_present key parsed f).
Proof.
  intros Hf. unfold when_present. destruct (dict_get key parsed) as [v|].
  - apply (sf_ext E _ (f v)); [reflexivity | apply Hf].
  - apply sf_ok.
Qed.

(** The errors [_parse_file]'s [try] block can raise. *)
Definition body_error (entry : FsEntry) (e : Exc) : Prop :=
  match entry with
  | Dir => e = OSError
  | Unreadable why => e = read_error why
  | File content => hcl2_loads content = Raise e \/ extraction_error e
  end.

Lemma parse_file_body_sf entry :
  state_free (body_error entry) (fun st => parse_file_body py_set_list hcl2_loads st entry).
Proof.
  destruct entry as [content| |why]; unfold parse_file_body.
  3:{ apply sf_raise. reflexivity. }
  2:{ apply sf_raise. reflexivity. }
  apply sf_bind; [intros e He; left; exact He | intros parsed].
  apply (sf_weaken extraction_error); [intros e He; right; exact He|].
  unfold extract_resources, extract_data_sources.
  apply sf_seq; [apply when_present_sf; intros v; apply extract_typed_sf; left; reflexivity|].
  apply sf_seq; [apply when_present_sf; intros v; apply extract_typed_sf; right; reflexivity|].
  apply sf_seq; [apply when_present_sf, extract_modules_sf|].
  apply sf_seq; [apply when_present_sf, extract_variables_sf|].
  apply sf_seq; [apply when_present_sf, extract_outputs_sf|].
  apply when_present_sf, extract_providers_sf.
Qed.

Lemma parse_file_sf entry :
  state_free (fun e => is_caught e = false /\ body_error entry e)
    (fun st => parse_file py_set_list hcl2_loads st entry).
Proof.
  destruct (parse_file_body_sf entry) as [r [Hok H]].
  exists (match r with
          | Ok ops => Ok ops
          | Raise e => if is_caught e then Ok [] else Raise e
          end).
  split.
  - destruct r as [ops|e]; [exact Hok|]. simpl in Hok.
    destruct (is_caught e) eqn:C; [exact (Forall_nil _) | split; [exact C | exact Hok]].
  - intros st. unfold parse_file. rewrite H.
    destruct r as [ops|e]; simpl; [reflexivity|]. destruct (is_caught e); reflexivity.
Qed.

(** The dict [parse_directory] returns for the state after the loop. *)
Definition graph_of (total : nat) (st : ParserState) : GraphResult :=
  mkGraph (map snd (entities st)) (relationships st)
    (mkMeta total (length (entities st)) (length (relationships st))).

Lemma parse_directory_sf fs dir :
  exists r, ops_ok (fun e => is_caught e = false) r
  /\ forall st, terraform_dir st = dir ->
     parse_directory py_set_list hcl2_loads fs st
     = match run_ops r st with
       | Ok st' => Ok (st', graph_of (length (rglob_tf fs dir)) st')
       | Raise e => Raise e
       end.
Proof.
  destruct (sf_res_fold (fun e => is_caught e = false)
              (fun st (f : FsPath * FsEntry) => parse_file py_set_list hcl2_loads st (snd f))
              (rglob_tf fs dir))
    as [r [Hok H]].
  { intros f. eapply sf_weaken; [|apply (parse_file_sf (snd f))]. intros e [He _]. exact He. }
  exists r. split; [exact Hok|]. intros st Hd.
  unfold parse_directory. rewrite Hd, H. destruct (run_ops r st); reflexivity.
Qed.

End StateFree.

(** ** Python dicts as association lists *)

Definition dict_set_all {A} (kvs d : list (string * A)) : list (string * A) :=
  fold_left (fun d kv => dict_set (fst kv) (snd kv) d) kvs d.

Lemma dict_get_none {A} k (d : list (string * A)) :
  dict_get k d = None <-> ~ In k (map fst d).
Proof.
  induction d as [|[k0 v] d IH]; simpl; [tauto|].
  destruct (String.eqb k0 k) eqn:E.
  - apply String.eqb_eq in E. split; [discriminate | intros H; exfalso; apply H; left; exact E].
  - apply String.eqb_neq in E. rewrite IH. split.
    + intros H [H'|H']; [exact (E H') | exact (H H')].
    + intros H H'. apply H. right. exact H'.
Qed.

Lemma dict_get_set_other {A} k k' v (d : list (string * A)) :
  k <> k' -> dict_get k' (dict_set k v d) = dict_get k' d.
Proof.
  intros Hne. induction d as [|[k0 w] d IH]; simpl.
  - apply String.eqb_neq in Hne. rewrite Hne. reflexivity.
  - destruct (String.eqb k0 k) eqn:E; simpl.
    + apply String.eqb_eq in E. subst k0. apply String.eqb_neq in Hne. rewrite Hne.
      reflexivity.
    + destruct (String.eqb k0 k'); [reflexivity | exact IH].
Qed.

Lemma dict_set_keys_in {A} k v (d : list (string * A)) k' :
  In k' (map fst (dict_set k v d)) <-> k' = k \/ In k' (map fst d).
Proof.
  induction d as [|[k0 w] d IH]; simpl.
  - split; [intros [H|[]]; left; symmetry; exact H | intros [H|[]]; left; symmetry; exact H].
  - destruct (String.eqb k0 k) eqn:E; simpl.
    + apply String.eqb_eq in E. subst k0. split; [tauto|].
      intros [H|[H|H]]; [left; symmetry; exact H | left; exact H | right; exact H].
    + rewrite IH. tauto.
Qed.

Lemma dict_set_keys_same {A} k v (d : list (string * A)) :
  In k (map fst d) -> map fst (dict_set k v d) = map fst d.
Proof.
  induction d as [|[k0 w] d IH]; simpl; [intros []|].
  destruct (String.eqb k0 k) eqn:E; simpl; [reflexivity|].
  intros [H|H]; [apply String.eqb_neq in E; contradiction|].
  rewrite (IH H). reflexivity.
Qed.

Lemma dict_set_nodup {A} k v (d : list (string * A)) :
  NoDup (map fst d) -> NoDup (map fst (dict_set k v d)).
Proof.
  induction d as [|[k0 w] d IH]; simpl; intros H.
  - constructor; [intros []| constructor].
  - inversion H as [|? ? Hn Hd]; subst.
    destruct (String.eqb k0 k) eqn:E; simpl; [exact H|].
    constructor; [|exact (IH Hd)].
    rewrite dict_set_keys_in. apply String.eqb_neq in E. tauto.
Qed.

Lemma dict_get_app {A} k (l1 l2 : list (string * A)) :
  dict_get k (l1 ++ l2) = match dict_get k l1 with Some v => Some v | None => dict_get k l2 end.
Proof.
  induction l1 as [|[k0 v] l1 IH]; simpl; [reflexivity|].
  destruct (String.eqb k0 k); [reflexivity | exact IH].
Qed.

Lemma dict_ext {A} (a b : list (string * A)) :
  NoDup (map fst a) -> map fst a = map fst b ->
  (forall k, dict_get k a = dict_get k b) -> a = b.
Proof.
  revert b. induction a as [|[k v] a IH]; intros [|[k2 w] b]; simpl;
    intros Hnd Hk Hg; try discriminate; [reflexivity|].
  injection Hk as <- Hk. inversion Hnd as [|? ? Hn Hnd']; subst.
  assert (v = w).
  { specialize (Hg k). rewrite String.eqb_refl in Hg. injection Hg as ->. reflexivity. }
  subst w. f_equal. apply IH; [exact Hnd' | exact Hk|].
  intros k'. specialize (Hg k'). destruct (String.eqb k k') eqn:E; [|exact Hg].
  apply String.eqb_eq in E. subst k'.
  rewrite (proj2 (dict_get_none k a) Hn).
  symmetry. apply dict_get_none. rewrite <- Hk. exact Hn.
Qed.

Lemma dict_set_all_get {A} k (kvs d : list (string * A)) :
  dict_get k (dict_set_all kvs d)
  = match dict_get k (rev kvs) with Some v => Some v | None => dict_get k d end.
Proof.
  revert d. induction kvs as [|[k0 v] kvs IH]; intros d; [reflexivity|].
  unfold dict_set_all in *. simpl. rewrite IH, dict_get_app. simpl.
  destruct (dict_get k (rev kvs)); [reflexivity|].
  destruct (String.eqb k0 k) eqn:E.
  - apply String.eqb_eq in E. subst k0. apply dict_get_set.
  - apply dict_get_set_other. apply String.eqb_neq in E. exact E.
Qed.

Lemma dict_set_all_keys_in {A} (kvs d : list (string * A)) k :
  In k (map fst (dict_set_all kvs d)) <-> In k (map fst kvs) \/ In k (map fst d).
Proof.
  revert d. induction kvs as [|[k0 v] kvs IH]; intros d; simpl; [tauto|].
  unfold dict_set_all in *. simpl. rewrite IH, dict_set_keys_in. split.
  - intros [H|[H|H]]; [left; right; exact H | left; left; symmetry; exact H | right; exact H].
  - intros [[H|H]|H]; [right; left; symmetry; exact H | left; exact H | right; right; exact H].
Qed.

Lemma dict_set_all_keys_same {A} (kvs d : list (string * A)) :
  (forall k, In k (map fst kvs) -> In k (map fst d)) ->
  map fst (dict_set_all kvs d) = map fst d.
Proof.
  revert d. induction kvs as [|[k0 v] kvs IH]; intros d Hsub; [reflexivity|].
  unfold dict_set_all in *. simpl.
  assert (Hin : In k0 (map fst d)) by (apply Hsub; left; reflexivity).
  rewrite IH.
  - apply dict_set_keys_same. exact Hin.
  - intros k Hk. rewrite dict_set_keys_same by exact Hin. apply Hsub. right. exact Hk.
Qed.

Lemma dict_set_all_nodup {A} (kvs d : list (string * A)) :
  NoDup (map fst d) -> NoDup (map fst (dict_set_all kvs d)).
Proof.
  revert d. induction kvs as [|[k0 v] kvs IH]; intros d H; [exact H|].
  unfold dict_set_all in *. simpl. apply IH, dict_set_nodup, H.
Qed.

Lemma dict_get_rev_none {A} k (kvs : list (string * A)) :
  dict_get k (rev kvs) = None -> ~ In k (map fst kvs).
Proof.
  intros H Hin. apply dict_get_none in H. apply H.
  rewrite map_rev. apply in_rev in Hin. exact Hin.
Qed.

(** Setting the same keys again over a dict [d] with the keys of
    [dict_set_all kvs X]: the result is [dict_set_all kvs X] as soon as [d]
    and [X] agree on the keys [kvs] does not set. *)
Lemma dict_set_all_over {A} (kvs d X : list (string * A)) :
  NoDup (map fst X) ->
  map fst d = map fst (dict_set_all kvs X) ->
  (forall k, ~ In k (map fst kvs) -> dict_get k d = dict_get k X) ->
  dict_set_all kvs d = dict_set_all kvs X.
Proof.
  intros Hnd Hk Hrest.
  assert (Hsub : forall k, In k (map fst kvs) -> In k (map fst d)).
  { intros k Hin. rewrite Hk, dict_set_all_keys_in. left. exact Hin. }
  apply dict_ext.
  - apply dict_set_all_nodup. rewrite Hk. apply dict_set_all_nodup, Hnd.
  - rewrite (dict_set_all_keys_same kvs d Hsub). exact Hk.
  - intros k. rewrite !dict_set_all_get.
    destruct (dict_get k (rev kvs)) eqn:E; [reflexivity|].
    apply Hrest, dict_get_rev_none, E.
Qed.

Lemma dict_set_all_twice {A} (kvs X : list (string * A)) :
  NoDup (map fst X) -> dict_set_all kvs (dict_set_all kvs X) = dict_set_all kvs X.
Proof.
  intros Hnd. apply dict_set_all_over; [exact Hnd | reflexivity | ].
  intros k Hn. rewrite dict_set_all_get.
  replace (dict_get k (rev kvs)) with (@None A); [reflexivity|].
  symmetry. apply dict_get_none. rewrite map_rev. intros Hin. apply Hn.
  apply in_rev. exact Hin.
Qed.

(** ** Registry updates of an extraction run *)

Definition op_edges (o : Op) : list Relationship :=
  match o with (k, _, deps, kind) => map (fun dep => mkRel k dep kind) deps end.

Definition op_entry (o : Op) : string * TerraformEntity :=
  match o with (k, e, _, _) => (k, e) end.

Lemma apply_ops_dir ops st : terraform_dir (apply_ops ops st) = terraform_dir st.
Proof.
  revert st. induction ops as [|[[[k e] deps] kind] ops IH]; intros st; [reflexivity|].
  unfold apply_ops in *. simpl. rewrite IH. reflexivity.
Qed.

Lemma apply_ops_rels ops st :
  relationships (apply_ops ops st) = relationships st ++ flat_map op_edges ops.
Proof.
  revert st. induction ops as [|[[[k e] deps] kind] ops IH]; intros st.
  - simpl. rewrite app_nil_r. reflexivity.
  - unfold apply_ops in *. simpl. rewrite IH. simpl. rewrite app_assoc. reflexivity.
Qed.

Lemma apply_ops_entities ops st :
  entities (apply_ops ops st) = dict_set_all (map op_entry ops) (entities st).
Proof.
  revert st. induction ops as [|[[[k e] deps] kind] ops IH]; intros st; [reflexivity|].
  unfold apply_ops in *. simpl. rewrite IH. reflexivity.
Qed.

Lemma dict_set_all_in {A} (kvs d : list (string * A)) kv :
  In kv (dict_set_all kvs d) -> In kv kvs \/ In kv d.
Proof.
  revert d. induction kvs as [|[k0 v] kvs IH]; intros d; simpl; [tauto|].
  unfold dict_set_all in *. simpl. intros H. destruct (IH _ H) as [H'|H']; [tauto|].
  destruct kv as [k' v']. apply dict_set_in in H'. destruct H' as [H'|H']; [|tauto].
  left; left; symmetry; exact H'.
Qed.

Lemma ops_entries_form ops kv :
  Forall op_form ops -> In kv (map op_entry ops) ->
  exists deps kind, op_form (fst kv, snd kv, deps, kind).
Proof.
  intros Hf Hin. apply in_map_iff in Hin. destruct Hin as [[[[k e] deps] kind] [<- Hin]].
  rewrite Forall_forall in Hf. exists deps, kind. exact (Hf _ Hin).
Qed.

Lemma set_position_keys k pos es : map fst (set_position k pos es) = map fst es.
Proof.
  unfold set_position. rewrite map_map. apply map_ext. intros [k' e].
  simpl. destruct (String.eqb k' k); reflexivity.
Qed.

Lemma place_column_keys x y ks es : map fst (place_column x y ks es) = map fst es.
Proof.
  revert y es. induction ks as [|k ks IH]; intros y es; simpl; [reflexivity|].
  rewrite IH. apply set_position_keys.
Qed.

Lemma place_columns_keys x cats es : map fst (place_columns x cats es) = map fst es.
Proof.
  revert x es. induction cats as [|[c ks] cats IH]; intros x es; simpl; [reflexivity|].
  rewrite IH. apply place_column_keys.
Qed.

Lemma calculate_layout_keys st :
  map fst (entities (calculate_layout st)) = map fst (entities st).
Proof. apply place_columns_keys. Qed.

Lemma fresh_run_positions ops dir :
  Forall op_form ops ->
  Forall (fun e => position e = None) (map snd (entities (apply_ops ops (init_parser dir)))).
Proof.
  intros Hf. apply Forall_forall. intros e He. apply in_map_snd in He.
  destruct He as [k Hk]. rewrite apply_ops_entities in Hk.
  apply dict_set_all_in in Hk. destruct Hk as [Hk|[]].
  destruct (ops_entries_form ops (k, e) Hf Hk) as (deps & kind & Hform).
  simpl in Hform. destruct Hform as (_ & Hp & _). exact Hp.
Qed.

(** A second run over a fresh run's result: same registry, same edges again. *)
Lemma rerun_entities ops d :
  map fst d = map fst (dict_set_all (map op_entry ops) []) ->
  dict_set_all (map op_entry ops) d = dict_set_all (map op_entry ops) [].
Proof.
  intros Hk. apply dict_set_all_over; [constructor | exact Hk |].
  intros k Hn. simpl. apply dict_get_none. rewrite Hk, dict_set_all_keys_in. simpl. tauto.
Qed.

(** ** Calling the parser more than once *)

(** [parse_directory] acts on the state only through its directory: two
    parsers with the same directory both succeed or both raise the same
    (uncaught) exception; when they succeed, both write the same entries
    into their registries and append the same relationships. *)
Theorem parse_directory_state_independent py_set_list hcl2_loads fs st1 st2 :
  terraform_dir st1 = terraform_dir st2 ->
  match parse_directory py_set_list hcl2_loads fs st1,
        parse_directory py_set_list hcl2_loads fs st2 with
  | Ok (s1, r1), Ok (s2, r2) =>
      exists writes added,
        entities s1 = dict_set_all writes (entities st1)
        /\ entities s2 = dict_set_all writes (entities st2)
        /\ relationships s1 = relationships st1 ++ added
        /\ relationships s2 = relationships st2 ++ added
        /\ total_files (g_metadata r1) = total_files (g_metadata r2)
  | Raise e1, Raise e2 => e1 = e2 /\ is_caught e1 = false
  | _, _ => False
  end.
Proof.
  intros Hd. destruct (parse_directory_sf py_set_list hcl2_loads fs (terraform_dir st1))
    as [r [Hok H]].
  rewrite (H st1 eq_refl), (H st2 (eq_sym Hd)).
  destruct r as [ops|e]; simpl.
  - exists (map op_entry ops), (flat_map op_edges ops).
    rewrite !apply_ops_entities, !apply_ops_rels. repeat split.
  - split; [reflexivity | exact Hok].
Qed.

(** A parser that already holds the variable [var.x]. *)
Definition var_x_state : ParserState :=
  add_entity "var.x" (mkEntity "var.x" "variable" "variable" "x" None (VDict []) [] None)
    [] "depends_on" (init_parser ["tf"]).

Lemma parse_directory_state_independent_witness :
  terraform_dir (init_parser ["tf"]) = terraform_dir var_x_state
  /\ match parse_directory dedup sample_loads sample_fs (init_parser ["tf"]),
           parse_directory dedup sample_loads sample_fs var_x_state with
     | Ok (s1, r1), Ok (s2, r2) =>
         exists writes added,
           entities s1 = dict_set_all writes (entities (init_parser ["tf"]))
           /\ entities s2 = dict_set_all writes (entities var_x_state)
           /\ relationships s1 = relationships (init_parser ["tf"]) ++ added
           /\ relationships s2 = relationships var_x_state ++ added
           /\ total_files (g_metadata r1) = total_files (g_metadata r2)
     | Raise e1, Raise e2 => e1 = e2 /\ is_caught e1 = false
     | _, _ => False
     end.
Proof.
  split; [reflexivity|].
  exact (parse_directory_state_independent dedup sample_loads sample_fs
           (init_parser ["tf"]) var_x_state eq_refl).
Defined.

(** Calling [parse_directory] again on the same parser (whose registry has
    unique keys, as every parser's has) succeeds, leaves the registry and
    the returned entities unchanged, and appends once more exactly the
    relationships the first call appended. *)
Theorem parse_directory_again py_set_list hcl2_loads fs st st1 r1 :
  NoDup (map fst (entities st)) ->
  parse_directory py_set_list hcl2_loads fs st = Ok (st1, r1) ->
  exists st2 r2,
    parse_directory py_set_list hcl2_loads fs st1 = Ok (st2, r2)
    /\ entities st2 = entities st1 /\ g_entities r2 = g_entities r1
    /\ exists added, relationships st1 = relationships st ++ added
                     /\ relationships st2 = relationships st1 ++ added.
Proof.
  intros Hnd Hp. destruct (parse_directory_sf py_set_list hcl2_loads fs (terraform_dir st))
    as [r [_ H]].
  rewrite (H st eq_refl) in Hp. destruct r as [ops|e]; simpl in Hp; [|discriminate].
  injection Hp as <- <-.
  rewrite (H (apply_ops ops st) (apply_ops_dir ops st)). simpl.
  assert (He : entities (apply_ops ops (apply_ops ops st)) = entities (apply_ops ops st)).
  { rewrite !apply_ops_entities. apply dict_set_all_twice, Hnd. }
  eexists _, _. split; [reflexivity|]. simpl. rewrite He. split; [reflexivity|].
  split; [reflexivity|].
  exists (flat_map op_edges ops). rewrite !apply_ops_rels. split; reflexivity.
Qed.

Lemma parse_directory_again_witness :
  NoDup (map fst (entities (init_parser ["tf"])))
  /\ exists st1 r1,
     parse_directory dedup sample_loads sample_fs (init_parser ["tf"]) = Ok (st1, r1)
     /\ exists st2 r2,
        parse_directory dedup sample_loads sample_fs st1 = Ok (st2, r2)
        /\ entities st2 = entities st1 /\ g_entities r2 = g_entities r1
        /\ exists added, relationships st1 = relationships (init_parser ["tf"]) ++ added
                         /\ relationships st2 = relationships st1 ++ added.
Proof.
  assert (Hnd : NoDup (map fst (entities (init_parser ["tf"])))) by constructor.
  split; [exact Hnd|].
  destruct (parse_directory dedup sample_loads sample_fs (init_parser ["tf"]))
    as [[st1 r1]|e] eqn:E.
  - exists st1, r1. split; [reflexivity|].
    exact (parse_directory_again dedup sample_loads sample_fs _ st1 r1 Hnd E).
  - vm_compute in E. discriminate E.
Defined.

(** [parse_terraform] returns the same entities it persists, and the
    relationships it persists twice over, when its output file is not
    below the scanned directory; only uncaught exceptions leave it. *)
Theorem parse_terraform_returns_edges_twice py_set_list hcl2_loads can_write fs dir out :
  strictly_below dir out = false ->
  match parse_terraform py_set_list hcl2_loads can_write fs dir out with
  | Ok (persisted, returned) =>
      g_entities returned = g_entities persisted
      /\ g_relationships returned = g_relationships persisted ++ g_relationships persisted
      /\ total_files (g_metadata returned) = total_files (g_metadata persisted)
      /\ total_entities (g_metadata returned) = total_entities (g_metadata persisted)
      /\ total_relationships (g_metadata returned)
         = 2 * total_relationships (g_metadata persisted)
  | Raise e => is_caught e = false
  end.
Proof.
  intros Hb. destruct (parse_directory_sf py_set_list hcl2_loads fs dir) as [r [Hok H]].
  unfold parse_terraform, save_to_json. rewrite init_layout, (H (init_parser dir) eq_refl).
  destruct r as [ops|e]; cbn [res_bind run_ops]; [|exact Hok].
  set (S1 := apply_ops ops (init_parser dir)).
  destruct (mkdir_parents can_write fs [] (removelast out)) as [fs1|e] eqn:Em;
    cbn [res_bind].
  2:{ rewrite (mkdir_parents_raise _ _ _ _ _ Em). reflexivity. }
  destruct (write_text can_write fs1 out (json_text (graph_of (length (rglob_tf fs dir)) S1)))
    as [fs2|e] eqn:Ew; cbn [res_bind].
  2:{ rewrite (write_text_raise _ _ _ _ _ Ew). reflexivity. }
  assert (Hdir : terraform_dir S1 = dir) by apply apply_ops_dir.
  rewrite (parse_directory_same_listing py_set_list hcl2_loads fs fs2 S1)
    by (rewrite Hdir; exact (save_write_rglob _ _ _ _ _ _ _ Hb Em Ew)).
  rewrite (H _ Hdir). simpl.
  assert (He : entities (apply_ops ops S1) = entities S1).
  { unfold S1. rewrite !apply_ops_entities. apply dict_set_all_twice. constructor. }
  assert (Hr1 : relationships S1 = flat_map op_edges ops).
  { unfold S1. rewrite apply_ops_rels. reflexivity. }
  unfold graph_of. simpl. rewrite He.
  rewrite (apply_ops_rels ops S1), Hr1.
  repeat split. rewrite length_app. lia.
Qed.

Lemma parse_terraform_returns_edges_twice_witness :
  strictly_below ["tf"] ["out.json"] = false
  /\ match parse_terraform dedup sample_loads all_writable sample_fs ["tf"] ["out.json"] with
     | Ok (persisted, returned) =>
         g_entities returned = g_entities persisted
         /\ g_relationships returned = g_relationships persisted ++ g_relationships persisted
         /\ total_files (g_metadata returned) = total_files (g_metadata persisted)
         /\ total_entities (g_metadata returned) = total_entities (g_metadata persisted)
         /\ total_relationships (g_metadata returned)
            = 2 * total_relationships (g_metadata persisted)
     | Raise e => is_caught e = false
     end.
Proof.
  assert (Hb : strictly_below ["tf"] ["out.json"] = false) by reflexivity.
  split; [exact Hb|].
  exact (parse_terraform_returns_edges_twice dedup sample_loads all_writable sample_fs
           ["tf"] ["out.json"] Hb).
Defined.

(** The API's [parse_terraform]: the returned dict holds the parser's own
    relationship list, which [save_to_json] extends, so it is the persisted
    list (the first run's edges twice), while its [total_relationships]
    still counts one run; the returned and the persisted entities coincide
    and none has a position, the layout being overwritten by the second run. *)
Theorem api_parse_terraform_shared_relationships py_set_list hcl2_loads can_write fs dir out :
  match Api.parse_terraform py_set_list hcl2_loads can_write fs dir out with
  | Ok (persisted, returned) =>
      g_entities returned = g_entities persisted
      /\ g_relationships returned = g_relationships persisted
      /\ (exists rels, g_relationships returned = rels ++ rels
            /\ total_relationships (g_metadata returned) = length rels
            /\ total_relationships (g_metadata persisted) = length rels + length rels)
      /\ Forall (fun e => position e = None) (g_entities returned)
  | Raise e => is_caught e = false
  end.
Proof.
  destruct (parse_directory_sf py_set_list hcl2_loads fs dir) as [r [Hok H]].
  unfold Api.parse_terraform, save_to_json. rewrite (H (init_parser dir) eq_refl).
  destruct r as [ops|e]; simpl; [|exact Hok].
  set (S1 := apply_ops ops (init_parser dir)).
  assert (Hdir : terraform_dir (calculate_layout S1) = dir) by apply apply_ops_dir.
  rewrite (H _ Hdir). cbn [res_bind run_ops].
  destruct (mkdir_parents can_write fs [] (removelast out)) as [fs1|e] eqn:Em;
    cbn [res_bind].
  2:{ rewrite (mkdir_parents_raise _ _ _ _ _ Em). reflexivity. }
  destruct (write_text can_write fs1 out _) as [fs2|e] eqn:Ew; cbn [res_bind].
  2:{ rewrite (write_text_raise _ _ _ _ _ Ew). reflexivity. }
  simpl.
  assert (He : entities (apply_ops ops (calculate_layout S1)) = entities S1).
  { unfold S1. rewrite !apply_ops_entities. apply rerun_entities.
    rewrite calculate_layout_keys. unfold S1. rewrite apply_ops_entities. reflexivity. }
  assert (Hr : relationships (apply_ops ops (calculate_layout S1))
               = relationships S1 ++ relationships S1).
  { rewrite apply_ops_rels.
    change (relationships (calculate_layout S1)) with (relationships S1).
    unfold S1. rewrite apply_ops_rels. reflexivity. }
  unfold graph_of. simpl. rewrite He, Hr.
  split; [reflexivity|]. split; [reflexivity|]. split.
  - exists (relationships S1). split; [reflexivity|]. split; [reflexivity|].
    apply length_app.
  - apply fresh_run_positions. exact Hok.
Qed.

(** [parse_directory] lets out no [LarkError] or [JSONDecodeError]: those
    are caught per file; what it raises comes from one listed [*.tf] entry:
    opening a directory ([OSError]), reading a file without permission or a
    dangling symbolic link ([OSError]) or undecodable content
    ([UnicodeDecodeError]), the loader, or an extraction routine
    ([TypeError], [AttributeError]); it aborts the whole call. *)
Theorem parse_directory_raises_uncaught py_set_list hcl2_loads fs st e :
  parse_directory py_set_list hcl2_loads fs st = Raise e ->
  is_caught e = false
  /\ exists f, In f (rglob_tf fs (terraform_dir st)) /\ body_error hcl2_loads (snd f) e.
Proof.
  unfold parse_directory.
  generalize (rglob_tf fs (terraform_dir st)) as files. intros files.
  destruct (res_fold (fun st f => parse_file py_set_list hcl2_loads st (snd f)) files st)
    as [s|e'] eqn:E; simpl; [discriminate|]. intros Heq; injection Heq as ->.
  revert st E. induction files as [|f files IH]; simpl; intros st E; [discriminate|].
  destruct (parse_file_sf py_set_list hcl2_loads (snd f)) as [r [Hok Hr]].
  rewrite Hr in E. destruct r as [ops|e1]; simpl in E.
  - destruct (IH _ E) as [Hc [f' [Hin Hb]]]. split; [exact Hc|].
    exists f'. split; [right; exact Hin | exact Hb].
  - injection E as ->. destruct Hok as [Hc Hb]. split; [exact Hc|].
    exists f. split; [left; reflexivity | exact Hb].
Qed.

Lemma parse_directory_raises_uncaught_witness :
  parse_directory dedup sample_loads sample_fs_undecodable (init_parser ["tf"])
    = Raise UnicodeDecodeError
  /\ is_caught UnicodeDecodeError = false
  /\ exists f, In f (rglob_tf sample_fs_undecodable ["tf"])
       /\ body_error sample_loads (snd f) UnicodeDecodeError.
Proof.
  assert (H : parse_directory dedup sample_loads sample_fs_undecodable (init_parser ["tf"])
              = Raise UnicodeDecodeError) by reflexivity.
  split; [exact H|].
  exact (parse_directory_raises_uncaught dedup _ sample_fs_undecodable (init_parser ["tf"])
           UnicodeDecodeError H).
Defined.

(** ** The registry after a parse *)

(** The shape of a registry entry, by category (the entity part of
    [op_form]). *)
Definition entity_form (e : TerraformEntity) : Prop :=
  position e = None
  /\ (((category e = "resource" \/ category e = "data")
       /\ id e = (category e ++ "." ++ type e ++ "." ++ name e)%string
       /\ provider e = Some (first_token (type e)))
      \/ (category e = "module" /\ type e = "module"
          /\ id e = ("module." ++ name e)%string /\ provider e = None)
      \/ (category e = "variable" /\ type e = "variable"
          /\ id e = ("var." ++ name e)%string /\ provider e = None)
      \/ (category e = "output" /\ type e = "output"
          /\ id e = ("output." ++ name e)%string /\ provider e = None)
      \/ (category e = "provider" /\ type e = "provider"
          /\ id e = ("provider." ++ name e)%string /\ provider e = Some (name e))).

Lemma op_form_entity k e deps kind : op_form (k, e, deps, kind) -> entity_form e.
Proof.
  intros (_ & Hp & _ & H). split; [exact Hp|].
  destruct H as [(C & I & P & _)|[(C & T & I & P & _)|[(C & T & I & P & _)|
                 [(C & T & I & P & _)|(C & T & I & P & _)]]]].
  - left. auto.
  - right; left. auto.
  - right; right; left. auto.
  - right; right; right; left. auto.
  - right; right; right; right. auto.
Qed.

Lemma entity_form_id_category e :
  entity_form e ->
  exists kw rest, id e = (kw ++ rest)%string
    /\ ((category e = "resource" /\ kw = "resource")
        \/ (category e = "data" /\ kw = "data")
        \/ (category e = "module" /\ kw = "module.")
        \/ (category e = "variable" /\ kw = "var.")
        \/ (category e = "output" /\ kw = "output.")
        \/ (category e = "provider" /\ kw = "provider.")).
Proof.
  intros [_ H].
  destruct H as [([C|C] & I & _)|[(C & _ & I & _)|[(C & _ & I & _)|
                 [(C & _ & I & _)|(C & _ & I & _)]]]];
    rewrite ?C in I; eexists _, _; split; try exact I; tauto.
Qed.

(** Two registry entries with one id have one category: the first letter
    of the id already tells them apart. *)
Lemma entity_form_same_id e1 e2 :
  entity_form e1 -> entity_form e2 -> id e1 = id e2 -> category e1 = category e2.
Proof.
  intros H1 H2 Hid.
  destruct (entity_form_id_category e1 H1) as (kw1 & r1 & I1 & C1).
  destruct (entity_form_id_category e2 H2) as (kw2 & r2 & I2 & C2).
  rewrite I1, I2 in Hid.
  destruct C1 as [[-> ->]|[[-> ->]|[[-> ->]|[[-> ->]|[[-> ->]|[-> ->]]]]]];
  destruct C2 as [[-> ->]|[[-> ->]|[[-> ->]|[[-> ->]|[[-> ->]|[-> ->]]]]]];
    try reflexivity; simpl in Hid; discriminate Hid.
Qed.

Lemma dict_get_in {A} k v (d : list (string * A)) : dict_get k d = Some v -> In (k, v) d.
Proof.
  induction d as [|[k0 w] d IH]; simpl; [discriminate|].
  destruct (String.eqb k0 k) eqn:E.
  - intros H; injection H as ->. apply String.eqb_eq in E. subst k0. left; reflexivity.
  - intros H. right. exact (IH H).
Qed.

Lemma fresh_parse py_set_list hcl2_loads fs dir :
  match parse_directory py_set_list hcl2_loads fs (init_parser dir) with
  | Ok (st, r) =>
      exists ops, Forall op_form ops
        /\ st = apply_ops ops (init_parser dir)
        /\ r = graph_of (length (rglob_tf fs dir)) st
  | Raise e => is_caught e = false
  end.
Proof.
  destruct (parse_directory_sf py_set_list hcl2_loads fs dir) as [r [Hok H]].
  rewrite (H (init_parser dir) eq_refl). destruct r as [ops|e]; simpl; [|exact Hok].
  exists ops. auto.
Qed.

Lemma fresh_entries ops dir k e :
  Forall op_form ops -> In (k, e) (entities (apply_ops ops (init_parser dir))) ->
  k = id e /\ entity_form e.
Proof.
  intros Hf Hin. rewrite apply_ops_entities in Hin.
  apply dict_set_all_in in Hin. destruct Hin as [Hin|[]].
  destruct (ops_entries_form ops (k, e) Hf Hin) as (deps & kind & Hform).
  split; [exact (proj1 Hform) | exact (op_form_entity _ _ _ _ Hform)].
Qed.

(** Every entity a fresh parser returns has the shape its category gives:
    id [resource.<type>.<name>] / [data.<type>.<name>] with the provider
    [type.split("_")[0]], [module.<name>], [var.<name>], [output.<name>]
    (no provider), [provider.<name>] (provider [name]); no position. *)
Theorem parse_directory_entity_forms py_set_list hcl2_loads fs dir :
  match parse_directory py_set_list hcl2_loads fs (init_parser dir) with
  | Ok (_, r) => Forall entity_form (g_entities r)
  | Raise _ => True
  end.
Proof.
  generalize (fresh_parse py_set_list hcl2_loads fs dir).
  destruct (parse_directory py_set_list hcl2_loads fs (init_parser dir)) as [[st r]|e];
    [|trivial].
  intros (ops & Hf & -> & ->). apply Forall_forall. intros e He.
  simpl in He. apply in_map_snd in He. destruct He as [k Hk].
  exact (proj2 (fresh_entries ops dir k e Hf Hk)).
Qed.

(** The entities a fresh parser returns have pairwise distinct ids (the
    registry is keyed by id), so [total_entities] counts distinct ids. *)
Theorem parse_directory_ids_unique py_set_list hcl2_loads fs dir :
  match parse_directory py_set_list hcl2_loads fs (init_parser dir) with
  | Ok (_, r) => NoDup (map id (g_entities r))
                 /\ total_entities (g_metadata r) = length (g_entities r)
  | Raise _ => True
  end.
Proof.
  generalize (fresh_parse py_set_list hcl2_loads fs dir).
  destruct (parse_directory py_set_list hcl2_loads fs (init_parser dir)) as [[st r]|e];
    [|trivial].
  intros (ops & Hf & -> & ->). simpl. rewrite length_map. split; [|reflexivity].
  replace (map id (map snd (entities (apply_ops ops (init_parser dir)))))
    with (map fst (entities (apply_ops ops (init_parser dir)))).
  - rewrite apply_ops_entities. apply dict_set_all_nodup. constructor.
  - rewrite map_map. apply map_ext_in. intros [k e] Hin.
    exact (proj1 (fresh_entries ops dir k e Hf Hin)).
Qed.

(** Every relationship a fresh parser returns starts at an entity it
    returns, and never at a variable or a provider (they have no
    dependencies). *)
Theorem parse_directory_relationship_sources py_set_list hcl2_loads fs dir :
  match parse_directory py_set_list hcl2_loads fs (init_parser dir) with
  | Ok (_, r) =>
      forall rel, In rel (g_relationships r) ->
      exists e, In e (g_entities r) /\ id e = source rel
                /\ category e <> "variable" /\ category e <> "provider"
  | Raise _ => True
  end.
Proof.
  generalize (fresh_parse py_set_list hcl2_loads fs dir).
  destruct (parse_directory py_set_list hcl2_loads fs (init_parser dir)) as [[st r]|e];
    [|trivial].
  intros (ops & Hf & -> & ->) rel Hrel. simpl in Hrel.
  rewrite apply_ops_rels in Hrel. simpl in Hrel.
  apply in_flat_map in Hrel. destruct Hrel as [[[[k e0] deps] kind] [Hop Hrel]].
  simpl in Hrel. apply in_map_iff in Hrel. destruct Hrel as [dep [<- Hdep]]. simpl.
  assert (Hf0 : op_form (k, e0, deps, kind)) by (rewrite Forall_forall in Hf; apply Hf, Hop).
  (* the entity now stored under [k] *)
  set (d := entities (apply_ops ops (init_parser dir))).
  assert (Hk : In k (map fst d)).
  { unfold d. rewrite apply_ops_entities, dict_set_all_keys_in. left.
    rewrite map_map. apply in_map_iff. exists (k, e0, deps, kind). split; [reflexivity | exact Hop]. }
  destruct (dict_get k d) as [e|] eqn:Eg.
  2:{ exfalso. apply dict_get_none in Eg. exact (Eg Hk). }
  apply dict_get_in in Eg.
  destruct (fresh_entries ops dir k e Hf Eg) as [Hid Hform].
  exists e. split; [apply in_map_iff; exists (k, e); split; [reflexivity | exact Eg]|].
  split; [symmetry; exact Hid|].
  assert (Hc : category e = category e0).
  { apply entity_form_same_id; [exact Hform | exact (op_form_entity _ _ _ _ Hf0)|].
    rewrite <- Hid. exact (proj1 Hf0). }
  rewrite Hc. destruct Hf0 as (_ & _ & Hd & H).
  assert (Hne : deps <> []) by (intros ->; exact Hdep).
  destruct H as [([C|C] & _)|[(C & _)|[(C & _ & _ & _ & Hnil)|
                 [(C & _)|(C & _ & _ & _ & Hnil)]]]];
    try (exfalso; exact (Hne Hnil)); rewrite C; split; discriminate.
Qed.

(** [s.split("_")[0]]: the text before the first underscore, the whole
    string when there is none. *)
Theorem first_token_split s :
  (forall c, In c (list_ascii_of_string (first_token s)) -> c <> "_"%char)
  /\ (first_token s = s
      \/ exists rest, s = (first_token s ++ String "_" rest)%string).
Proof.
  induction s as [|c s IH]; simpl.
  - split; [intros c []| left; reflexivity].
  - destruct (Ascii.eqb c "_") eqn:E.
    + apply Ascii.eqb_eq in E. subst c. split; [intros c []|].
      right. exists s. reflexivity.
    + apply Ascii.eqb_neq in E. destruct IH as [Hno Hs]. split.
      * intros c' [<-|Hin]; [exact E | exact (Hno c' Hin)].
      * destruct Hs as [Hs|[rest Hs]]; [left; rewrite Hs; reflexivity|].
        right. exists rest. simpl. rewrite <- Hs. reflexivity.
Qed.

(** ** The layout *)

(** The categories of [es] in order of first appearance (the keys of
    [categories]), the keys of one category in order, and a key's index. *)
Definition cat_order (es : list (string * TerraformEntity)) : list string :=
  fold_left (fun acc ke =>
    if existsb (fun c => String.eqb c (category (snd ke))) acc then acc
    else acc ++ [category (snd ke)]) es [].

Definition keys_of_cat (es : list (string * TerraformEntity)) (c : string) : list string :=
  map fst (filter (fun ke => String.eqb (category (snd ke)) c) es).

Fixpoint index_of (k : string) (l : list string) : nat :=
  match l with
  | [] => O
  | x :: l => if String.eqb x k then O else S (index_of k l)
  end.

(** Column: the index of the entity's category; row: its index among the
    entities of that category. *)
Definition grid_pos (es : list (string * TerraformEntity)) (ke : string * TerraformEntity)
  : Z * Z :=
  (Z.of_nat (index_of (category (snd ke)) (cat_order es)) * 250,
   Z.of_nat (index_of (fst ke) (keys_of_cat es (category (snd ke)))) * 150)%Z.

Lemma existsb_eqb_in c l : existsb (fun c' => String.eqb c' c) l = true <-> In c l.
Proof.
  rewrite existsb_exists. split.
  - intros [c' [Hin He]]. apply String.eqb_eq in He. subst c'. exact Hin.
  - intros Hin. exists c. split; [exact Hin | apply String.eqb_refl].
Qed.

Lemma cat_order_app es ke :
  cat_order (es ++ [ke])
  = if existsb (fun c => String.eqb c (category (snd ke))) (cat_order es)
    then cat_order es else cat_order es ++ [category (snd ke)].
Proof. unfold cat_order. rewrite fold_left_app. reflexivity. Qed.

Lemma cat_order_spec es :
  NoDup (cat_order es) /\ (forall c, In c (cat_order es) <-> In c (map (fun ke => category (snd ke)) es)).
Proof.
  induction es as [|ke es IH] using rev_ind.
  - split; [constructor | intros c; simpl; tauto].
  - destruct IH as [Hnd Hin]. rewrite cat_order_app.
    destruct (existsb (fun c => String.eqb c (category (snd ke))) (cat_order es)) eqn:E.
    + apply existsb_eqb_in in E. split; [exact Hnd|].
      intros c. rewrite Hin, map_app, in_app_iff. simpl. split; [tauto|].
      intros [H|[H|[]]]; [exact H | subst c; apply Hin, E].
    + split.
      * apply NoDup_app; [exact Hnd | constructor; [intros []|constructor] |].
        intros c Hc [Hc'|[]]. subst c. rewrite <- existsb_eqb_in, E in Hc. discriminate.
      * intros c. rewrite in_app_iff, Hin, map_app, in_app_iff. simpl. tauto.
Qed.

Lemma keys_of_cat_app es ke c :
  keys_of_cat (es ++ [ke]) c
  = keys_of_cat es c ++ (if String.eqb (category (snd ke)) c then [fst ke] else []).
Proof.
  unfold keys_of_cat. rewrite filter_app, map_app. simpl.
  destruct (String.eqb (category (snd ke)) c); reflexivity.
Qed.

Lemma keys_of_cat_absent es c :
  ~ In c (map (fun ke => category (snd ke)) es) -> keys_of_cat es c = [].
Proof.
  unfold keys_of_cat. induction es as [|ke es IH]; simpl; intros Hn; [reflexivity|].
  destruct (String.eqb (category (snd ke)) c) eqn:E.
  - apply String.eqb_eq in E. exfalso. apply Hn. left. exact E.
  - apply IH. intros H. apply Hn. right. exact H.
Qed.

Lemma dict_get_map {A} c (h : string -> A) O :
  dict_get c (map (fun c' => (c', h c')) O)
  = if existsb (fun c' => String.eqb c' c) O then Some (h c) else None.
Proof.
  induction O as [|c0 O IH]; simpl; [reflexivity|].
  destruct (String.eqb c0 c) eqn:E; simpl;
    [apply String.eqb_eq in E; subst; reflexivity | exact IH].
Qed.

Lemma dict_set_map_in {A} c v (h : string -> A) O :
  NoDup O -> In c O ->
  dict_set c v (map (fun c' => (c', h c')) O)
  = map (fun c' => (c', if String.eqb c' c then v else h c')) O.
Proof.
  induction O as [|c0 O IH]; simpl; intros Hnd Hin; [destruct Hin|].
  inversion Hnd as [|? ? Hn Hnd']; subst.
  destruct (String.eqb c0 c) eqn:E.
  - apply String.eqb_eq in E. subst c0. f_equal.
    symmetry. rewrite <- (map_id O) at 2. rewrite map_map. apply map_ext_in.
    intros c' Hc'. destruct (String.eqb c' c) eqn:E'; [|reflexivity].
    apply String.eqb_eq in E'. subst. contradiction.
  - f_equal. apply IH; [exact Hnd'|]. destruct Hin as [H|H]; [|exact H].
    subst. rewrite String.eqb_refl in E. discriminate.
Qed.

Lemma dict_set_map_notin {A} c v (h : string -> A) O :
  ~ In c O ->
  dict_set c v (map (fun c' => (c', h c')) O) = map (fun c' => (c', h c')) O ++ [(c, v)].
Proof.
  induction O as [|c0 O IH]; simpl; intros Hn; [reflexivity|].
  destruct (String.eqb c0 c) eqn:E.
  - apply String.eqb_eq in E. subst. exfalso. apply Hn. left; reflexivity.
  - f_equal. apply IH. intros H. apply Hn. right. exact H.
Qed.

(** [categories] as built by [calculate_layout]. *)
Lemma group_by_category_spec es :
  group_by_category es = map (fun c => (c, keys_of_cat es c)) (cat_order es).
Proof.
  induction es as [|[k e] es IH] using rev_ind; [reflexivity|].
  unfold group_by_category in *. rewrite fold_left_app, IH. simpl.
  rewrite cat_order_app. simpl.
  destruct (cat_order_spec es) as [Hnd Hin].
  rewrite dict_get_map.
  destruct (existsb (fun c => String.eqb c (category e)) (cat_order es)) eqn:E.
  - apply existsb_eqb_in in E. rewrite dict_set_map_in by assumption.
    apply map_ext. intros c'. rewrite keys_of_cat_app. simpl.
    destruct (String.eqb c' (category e)) eqn:E1.
    + apply String.eqb_eq in E1. subst c'. rewrite String.eqb_refl. reflexivity.
    + rewrite String.eqb_sym, E1, app_nil_r. reflexivity.
  - rewrite dict_set_map_notin.
    2:{ intros H. apply existsb_eqb_in in H. rewrite H in E. discriminate. }
    rewrite map_app. simpl. f_equal.
    + apply map_ext_in. intros c' Hc'. rewrite keys_of_cat_app. simpl.
      destruct (String.eqb (category e) c') eqn:E1; [|rewrite app_nil_r; reflexivity].
      apply String.eqb_eq in E1. subst c'. exfalso.
      apply existsb_eqb_in in Hc'. rewrite Hc' in E. discriminate.
    + rewrite keys_of_cat_app, keys_of_cat_absent; simpl.
      * rewrite String.eqb_refl. reflexivity.
      * intros H. apply Hin in H. apply existsb_eqb_in in H. rewrite H in E. discriminate.
Qed.

(** The positions assigned so far, as a function of the key. *)
Definition assign_pos (f : string -> option (Z * Z)) (es : list (string * TerraformEntity))
  : list (string * TerraformEntity) :=
  map (fun ke => match f (fst ke) with
                 | Some p => (fst ke, with_position (snd ke) p)
                 | None => ke
                 end) es.

Definition upd (f : string -> option (Z * Z)) (k : string) (p : Z * Z)
  : string -> option (Z * Z) :=
  fun k' => if String.eqb k' k then Some p else f k'.

Fixpoint col_upd (x y : Z) (ks : list string) (f : string -> option (Z * Z))
  : string -> option (Z * Z) :=
  match ks with
  | [] => f
  | k :: ks => col_upd x (y + 1)%Z ks (upd f k (x * 250, y * 150)%Z)
  end.

Fixpoint cols_upd (x : Z) (cats : list (string * list string))
  (f : string -> option (Z * Z)) : string -> option (Z * Z) :=
  match cats with
  | [] => f
  | (_, ks) :: more => cols_upd (x + 1)%Z more (col_upd x 0 ks f)
  end.

Lemma set_position_assign k p f es :
  set_position k p (assign_pos f es) = assign_pos (upd f k p) es.
Proof.
  unfold set_position, assign_pos, upd. rewrite map_map. apply map_ext. intros [k' e].
  simpl. destruct (f k') as [p0|]; simpl; destruct (String.eqb k' k); reflexivity.
Qed.

Lemma place_column_assign x y ks f es :
  place_column x y ks (assign_pos f es) = assign_pos (col_upd x y ks f) es.
Proof.
  revert y f. induction ks as [|k ks IH]; intros y f; [reflexivity|].
  simpl. rewrite set_position_assign. apply IH.
Qed.

Lemma place_columns_assign x cats f es :
  place_columns x cats (assign_pos f es) = assign_pos (cols_upd x cats f) es.
Proof.
  revert x f. induction cats as [|[c ks] cats IH]; intros x f; [reflexivity|].
  simpl. rewrite place_column_assign. apply IH.
Qed.

Lemma assign_none es : assign_pos (fun _ => None) es = es.
Proof. unfold assign_pos. rewrite <- (map_id es) at 2. apply map_ext. reflexivity. Qed.

Lemma col_upd_notin x y ks f k : ~ In k ks -> col_upd x y ks f k = f k.
Proof.
  revert y f. induction ks as [|k0 ks IH]; intros y f Hn; [reflexivity|].
  simpl. rewrite IH by (intros H; apply Hn; right; exact H).
  unfold upd. destruct (String.eqb k k0) eqn:E; [|reflexivity].
  apply String.eqb_eq in E. subst. exfalso. apply Hn. left; reflexivity.
Qed.

Lemma col_upd_in x y ks f k :
  NoDup ks -> In k ks ->
  col_upd x y ks f k = Some (x * 250, (y + Z.of_nat (index_of k ks)) * 150)%Z.
Proof.
  revert y f. induction ks as [|k0 ks IH]; intros y f Hnd Hin; [destruct Hin|].
  inversion Hnd as [|? ? Hn Hnd']; subst. simpl.
  destruct (String.eqb k0 k) eqn:E.
  - apply String.eqb_eq in E. subst k0. rewrite col_upd_notin by exact Hn.
    unfold upd. rewrite String.eqb_refl. f_equal. f_equal. lia.
  - destruct Hin as [H|H]; [subst; rewrite String.eqb_refl in E; discriminate|].
    rewrite (IH _ _ Hnd' H). f_equal. f_equal. lia.
Qed.

Lemma NoDup_app_disj {A} (l1 l2 : list A) a : NoDup (l1 ++ l2) -> In a l1 -> ~ In a l2.
Proof.
  induction l1 as [|b l1 IH]; simpl; intros Hnd Hin; [destruct Hin|].
  inversion Hnd as [|? ? Hn Hnd']; subst. destruct Hin as [->|Hin].
  - intros H. apply Hn, in_app_iff. right. exact H.
  - exact (IH Hnd' Hin).
Qed.

Lemma cols_upd_notin x cats f k :
  ~ In k (concat (map snd cats)) -> cols_upd x cats f k = f k.
Proof.
  revert x f. induction cats as [|[c ks] cats IH]; intros x f Hn; [reflexivity|].
  simpl in *. rewrite IH by (intros H; apply Hn, in_app_iff; right; exact H).
  apply col_upd_notin. intros H. apply Hn, in_app_iff. left. exact H.
Qed.

Lemma cols_upd_in x cats f k i c ks :
  NoDup (concat (map snd cats)) -> nth_error cats i = Some (c, ks) -> In k ks ->
  cols_upd x cats f k = Some ((x + Z.of_nat i) * 250, Z.of_nat (index_of k ks) * 150)%Z.
Proof.
  revert x f i. induction cats as [|[c0 ks0] cats IH]; intros x f i Hnd Hi Hk.
  - destruct i; discriminate.
  - simpl in Hnd |- *. destruct i as [|i]; simpl in Hi.
    + injection Hi as <- <-. rewrite cols_upd_notin by (eapply NoDup_app_disj; eassumption).
      rewrite col_upd_in; [f_equal; f_equal; lia | exact (NoDup_app_remove_r _ _ Hnd) | exact Hk].
    + rewrite (IH _ _ i (NoDup_app_remove_l _ _ Hnd) Hi Hk). f_equal. f_equal. lia.
Qed.

Lemma NoDup_map_filter {A B} (f : A -> B) p (l : list A) :
  NoDup (map f l) -> NoDup (map f (filter p l)).
Proof.
  induction l as [|a l IH]; simpl; intros H; [constructor|].
  inversion H as [|? ? Hn Hnd]; subst. destruct (p a); simpl; [|exact (IH Hnd)].
  constructor; [|exact (IH Hnd)]. intros Hin. apply Hn.
  apply in_map_iff in Hin. destruct Hin as [a' [Ha' Hin]]. apply filter_In in Hin.
  apply in_map_iff. exists a'. split; [exact Ha' | exact (proj1 Hin)].
Qed.

Lemma NoDup_fst_same {A} (l : list (string * A)) k v1 v2 :
  NoDup (map fst l) -> In (k, v1) l -> In (k, v2) l -> v1 = v2.
Proof.
  induction l as [|[k0 w] l IH]; simpl; intros Hnd H1 H2; [destruct H1|].
  inversion Hnd as [|? ? Hn Hnd']; subst.
  destruct H1 as [H1|H1], H2 as [H2|H2].
  - inversion H1; inversion H2; subst; reflexivity.
  - inversion H1; subst. exfalso. apply Hn. apply in_map_iff. exists (k, v2). auto.
  - inversion H2; subst. exfalso. apply Hn. apply in_map_iff. exists (k, v1). auto.
  - exact (IH Hnd' H1 H2).
Qed.

Lemma in_keys_of_cat es c k :
  In k (keys_of_cat es c) <-> exists e, In (k, e) es /\ category e = c.
Proof.
  unfold keys_of_cat. rewrite in_map_iff. split.
  - intros [[k' e] [Hk Hin]]. simpl in Hk. subst k'. apply filter_In in Hin.
    exists e. split; [exact (proj1 Hin)|]. apply String.eqb_eq, (proj2 Hin).
  - intros [e [Hin Hc]]. exists (k, e). split; [reflexivity|].
    apply filter_In. split; [exact Hin|]. simpl. apply String.eqb_eq, Hc.
Qed.

Lemma groups_nodup es O :
  NoDup (map fst es) -> NoDup O ->
  NoDup (concat (map snd (map (fun c => (c, keys_of_cat es c)) O))).
Proof.
  intros Hes. induction O as [|c O IH]; simpl; intros HO; [constructor|].
  inversion HO as [|? ? Hn HO']; subst.
  apply NoDup_app; [apply NoDup_map_filter, Hes | exact (IH HO') |].
  intros k Hk Hk'. rewrite map_map in Hk'. apply in_concat in Hk'.
  destruct Hk' as [ks [Hks Hk']]. apply in_map_iff in Hks. destruct Hks as [c' [<- Hc']].
  apply in_keys_of_cat in Hk, Hk'. destruct Hk as [e [He Hce]], Hk' as [e' [He' Hce']].
  rewrite (NoDup_fst_same es k e e' Hes He He') in Hce. subst. exact (Hn Hc').
Qed.

Lemma index_of_nth k l : In k l -> nth_error l (index_of k l) = Some k.
Proof.
  induction l as [|x l IH]; simpl; intros H; [destruct H|].
  destruct (String.eqb x k) eqn:E; [apply String.eqb_eq in E; subst; reflexivity|].
  destruct H as [H|H]; [subst; rewrite String.eqb_refl in E; discriminate | exact (IH H)].
Qed.

Lemma index_of_inj a b l : In a l -> In b l -> index_of a l = index_of b l -> a = b.
Proof.
  intros Ha Hb Hi. apply index_of_nth in Ha, Hb. rewrite Hi, Hb in Ha.
  injection Ha as ->. reflexivity.
Qed.

Lemma in_cat_order es k e : In (k, e) es -> In (category e) (cat_order es).
Proof.
  intros H. apply (proj2 (cat_order_spec es)). apply in_map_iff. exists (k, e). auto.
Qed.

Lemma cat_order_map g es :
  (forall ke, category (g ke) = category (snd ke)) ->
  cat_order (map (fun ke => (fst ke, g ke)) es) = cat_order es.
Proof.
  intros Hg. induction es as [|ke es IH] using rev_ind; [reflexivity|].
  rewrite map_app. simpl. rewrite !cat_order_app, IH. simpl. rewrite Hg. reflexivity.
Qed.

Lemma keys_of_cat_map g es c :
  (forall ke, category (g ke) = category (snd ke)) ->
  keys_of_cat (map (fun ke => (fst ke, g ke)) es) c = keys_of_cat es c.
Proof.
  intros Hg. unfold keys_of_cat. induction es as [|ke es IH]; [reflexivity|].
  simpl. rewrite Hg. destruct (String.eqb (category (snd ke)) c); simpl; rewrite IH; reflexivity.
Qed.

Lemma grid_pos_map g es k e :
  (forall ke, category (g ke) = category (snd ke)) ->
  category e = category (g (k, e)) ->
  grid_pos (map (fun ke => (fst ke, g ke)) es) (k, g (k, e)) = grid_pos es (k, e).
Proof.
  intros Hg He. unfold grid_pos. simpl. rewrite <- He, cat_order_map, keys_of_cat_map by exact Hg.
  reflexivity.
Qed.

Lemma calculate_layout_entities st :
  NoDup (map fst (entities st)) ->
  entities (calculate_layout st)
  = map (fun ke => (fst ke, with_position (snd ke) (grid_pos (entities st) ke))) (entities st).
Proof.
  intros Hnd. unfold calculate_layout. simpl. set (es := entities st) in *.
  transitivity (place_columns 0 (group_by_category es) (assign_pos (fun _ => None) es));
    [rewrite assign_none; reflexivity|].
  rewrite place_columns_assign. unfold assign_pos. apply map_ext_in. intros [k e] Hin. simpl.
  rewrite group_by_category_spec.
  destruct (cat_order_spec es) as [HO _].
  rewrite (cols_upd_in 0 _ _ k (index_of (category e) (cat_order es)) (category e)
             (keys_of_cat es (category e))).
  - unfold grid_pos. simpl. reflexivity.
  - exact (groups_nodup es _ Hnd HO).
  - rewrite nth_error_map, index_of_nth by exact (in_cat_order es k e Hin). reflexivity.
  - apply in_keys_of_cat. exists e. auto.
Qed.

Lemma calculate_layout_in st k e' :
  NoDup (map fst (entities st)) -> In (k, e') (entities (calculate_layout st)) ->
  exists e, In (k, e) (entities st) /\ e' = with_position e (grid_pos (entities st) (k, e)).
Proof.
  intros Hnd Hin. rewrite calculate_layout_entities in Hin by exact Hnd.
  apply in_map_iff in Hin. destruct Hin as [[k0 e] [Heq Hin]]. simpl in Heq.
  injection Heq as <- <-. exists e. auto.
Qed.

(** A small registry with two categories, for the examples below. *)
Definition sample_bucket : TerraformEntity :=
  mkEntity "aws_s3_bucket.logs" "aws_s3_bucket" "resource" "logs" (Some "aws") (VDict []) [] None.

Definition sample_region : TerraformEntity :=
  mkEntity "var.region" "variable" "variable" "region" None (VDict []) [] None.

Definition sample_web : TerraformEntity :=
  mkEntity "aws_instance.web" "aws_instance" "resource" "web" (Some "aws") (VDict [])
    ["var.region"] None.

Definition layout_sample : ParserState :=
  mkState ["tf"]
    [("aws_s3_bucket.logs", sample_bucket); ("var.region", sample_region);
     ("aws_instance.web", sample_web)]
    [mkRel "aws_instance.web" "var.region" "depends_on"].

(** ** Properties of the layout *)

(** [calculate_layout] gives every entity the position of its grid cell:
    column = index of its category in order of first appearance (times
    250), row = its index among the entities of that category (times 150).
    Nothing else in the parser state changes. *)
Theorem calculate_layout_grid st :
  NoDup (map fst (entities st)) ->
  calculate_layout st
  = mkState (terraform_dir st)
      (map (fun ke => (fst ke, with_position (snd ke) (grid_pos (entities st) ke))) (entities st))
      (relationships st).
Proof.
  intros Hnd. rewrite <- (calculate_layout_entities st Hnd). reflexivity.
Qed.

Lemma calculate_layout_grid_witness :
  NoDup (map fst (entities layout_sample))
  /\ calculate_layout layout_sample
     = mkState ["tf"]
         (map (fun ke => (fst ke, with_position (snd ke) (grid_pos (entities layout_sample) ke)))
            (entities layout_sample))
         (relationships layout_sample).
Proof.
  assert (H : NoDup (map fst (entities layout_sample)))
    by (repeat constructor; simpl; intuition discriminate).
  split; [exact H | exact (calculate_layout_grid layout_sample H)].
Defined.

(** With distinct keys, [calculate_layout] never puts two entities on the
    same position. *)
Theorem calculate_layout_no_overlap st k1 e1 k2 e2 :
  NoDup (map fst (entities st)) ->
  In (k1, e1) (entities (calculate_layout st)) ->
  In (k2, e2) (entities (calculate_layout st)) ->
  k1 <> k2 -> position e1 <> position e2.
Proof.
  intros Hnd H1 H2 Hk Hp.
  destruct (calculate_layout_in st k1 e1 Hnd H1) as [f1 [Hf1 ->]].
  destruct (calculate_layout_in st k2 e2 Hnd H2) as [f2 [Hf2 ->]].
  simpl in Hp. unfold grid_pos in Hp. simpl in Hp. injection Hp as Hx Hy.
  assert (Hc : category f1 = category f2).
  { apply (index_of_inj _ _ (cat_order (entities st)));
      [exact (in_cat_order _ _ _ Hf1) | exact (in_cat_order _ _ _ Hf2) | lia]. }
  rewrite Hc in Hy. apply Hk.
  apply (index_of_inj _ _ (keys_of_cat (entities st) (category f2))); [| |lia];
    apply in_keys_of_cat; eauto.
Qed.

Lemma calculate_layout_no_overlap_witness :
  In ("aws_s3_bucket.logs", with_position sample_bucket (0, 0)%Z)
     (entities (calculate_layout layout_sample))
  /\ In ("aws_instance.web", with_position sample_web (0, 150)%Z)
     (entities (calculate_layout layout_sample))
  /\ position (with_position sample_bucket (0, 0)%Z)
     <> position (with_position sample_web (0, 150)%Z).
Proof.
  assert (H1 : In ("aws_s3_bucket.logs", with_position sample_bucket (0, 0)%Z)
                 (entities (calculate_layout layout_sample)))
    by (vm_compute; left; reflexivity).
  assert (H2 : In ("aws_instance.web", with_position sample_web (0, 150)%Z)
                 (entities (calculate_layout layout_sample)))
    by (vm_compute; right; right; left; reflexivity).
  split; [exact H1|]. split; [exact H2|].
  apply (calculate_layout_no_overlap layout_sample "aws_s3_bucket.logs" _ "aws_instance.web" _);
    [|exact H1|exact H2|discriminate].
  repeat constructor; simpl; intuition discriminate.
Defined.

(** Columns are categories: after [calculate_layout], two entities have
    the same x coordinate exactly when they have the same category. *)
Theorem calculate_layout_columns st k1 e1 k2 e2 x1 y1 x2 y2 :
  NoDup (map fst (entities st)) ->
  In (k1, e1) (entities (calculate_layout st)) ->
  In (k2, e2) (entities (calculate_layout st)) ->
  position e1 = Some (x1, y1) -> position e2 = Some (x2, y2) ->
  (x1 = x2 <-> category e1 = category e2).
Proof.
  intros Hnd H1 H2 P1 P2.
  destruct (calculate_layout_in st k1 e1 Hnd H1) as [f1 [Hf1 ->]].
  destruct (calculate_layout_in st k2 e2 Hnd H2) as [f2 [Hf2 ->]].
  simpl in P1, P2 |- *. unfold grid_pos in P1, P2. simpl in P1, P2.
  injection P1 as <- _. injection P2 as <- _. split.
  - intros Hx. apply (index_of_inj _ _ (cat_order (entities st)));
      [exact (in_cat_order _ _ _ Hf1) | exact (in_cat_order _ _ _ Hf2) | lia].
  - intros ->. reflexivity.
Qed.

Lemma calculate_layout_columns_witness :
  In ("aws_s3_bucket.logs", with_position sample_bucket (0, 0)%Z)
     (entities (calculate_layout layout_sample))
  /\ In ("var.region", with_position sample_region (250, 0)%Z)
     (entities (calculate_layout layout_sample))
  /\ ((0 = 250)%Z <-> category (with_position sample_bucket (0, 0)%Z)
                      = category (with_position sample_region (250, 0)%Z)).
Proof.
  assert (H1 : In ("aws_s3_bucket.logs", with_position sample_bucket (0, 0)%Z)
                 (entities (calculate_layout layout_sample)))
    by (vm_compute; left; reflexivity).
  assert (H2 : In ("var.region", with_position sample_region (250, 0)%Z)
                 (entities (calculate_layout layout_sample)))
    by (vm_compute; right; left; reflexivity).
  split; [exact H1|]. split; [exact H2|].
  apply (calculate_layout_columns layout_sample "aws_s3_bucket.logs" _ "var.region" _ 0 0 250 0);
    [|exact H1|exact H2|reflexivity|reflexivity].
  repeat constructor; simpl; intuition discriminate.
Defined.

(** Laying out an already laid-out registry changes nothing: the second
    [calculate_layout] in [save_to_json] and [parse_terraform] moves no
    entity. *)
Theorem calculate_layout_idempotent st :
  NoDup (map fst (entities st)) ->
  calculate_layout (calculate_layout st) = calculate_layout st.
Proof.
  intros Hnd.
  assert (Hnd' : NoDup (map fst (entities (calculate_layout st)))).
  { rewrite calculate_layout_entities, map_map by exact Hnd. exact Hnd. }
  rewrite (calculate_layout_grid (calculate_layout st) Hnd').
  rewrite (calculate_layout_grid st Hnd). simpl. f_equal.
  rewrite map_map. apply map_ext. intros [k e]. simpl.
  assert (Hg := grid_pos_map (fun ke => with_position (snd ke) (grid_pos (entities st) ke))
                 (entities st) k e (fun _ => eq_refl) eq_refl).
  cbv beta in Hg. cbn [snd] in Hg. rewrite Hg. reflexivity.
Qed.

Lemma calculate_layout_idempotent_witness :
  NoDup (map fst (entities layout_sample))
  /\ calculate_layout (calculate_layout layout_sample) = calculate_layout layout_sample.
Proof.
  assert (H : NoDup (map fst (entities layout_sample)))
    by (repeat constructor; simpl; intuition discriminate).
  split; [exact H | exact (calculate_layout_idempotent layout_sample H)].
Defined.

(** ** What [_find_references] can return *)

Lemma has_dot_remove_dollar s :
  has_dot s = false -> has_dot (remove_dollar_brace s) = false.
Proof.
  induction s as [|c s IH]; intros H; [reflexivity|].
  simpl in H. apply orb_false_iff in H as [Hc Hs]. simpl.
  destruct (Ascii.eqb c "$") eqn:E.
  - destruct s as [|d s']; [simpl; rewrite Hc; reflexivity|].
    destruct (Ascii.eqb d "{") eqn:Ed.
    + apply Ascii.eqb_eq in Ed. subst d. specialize (IH Hs). simpl in IH. exact IH.
    + simpl. rewrite Hc. exact (IH Hs).
  - simpl. rewrite Hc. exact (IH Hs).
Qed.

Lemma has_dot_remove_close s :
  has_dot s = false -> has_dot (remove_close_brace s) = false.
Proof.
  induction s as [|c s IH]; intros H; [reflexivity|].
  simpl in H. apply orb_false_iff in H as [Hc Hs]. simpl.
  destruct (Ascii.eqb c "}"); [exact (IH Hs)|]. simpl. rewrite Hc. exact (IH Hs).
Qed.

Lemma patterns_need_dot p : In p patterns -> needs_dot p = true.
Proof. intros Hp. repeat (destruct Hp as [<-|Hp]; [reflexivity|]). destruct Hp. Qed.

(** A text without a [.] holds no reference: every pattern of the table
    matches a dot, and the two [replace] calls add none. *)
Theorem find_references_no_dot py_set_list text :
  set_list_spec py_set_list -> has_dot text = false ->
  find_references py_set_list text = [].
Proof.
  intros Hset Hd. unfold find_references.
  assert (Hd' := has_dot_remove_close _ (has_dot_remove_dollar _ Hd)).
  set (t := remove_close_brace (remove_dollar_brace text)) in *.
  assert (Hnil : flat_map (fun p => flat_map (ref_of_match p) (findall p t)) patterns = []).
  { assert (Hl : forall l, (forall p, In p l -> needs_dot p = true) ->
             flat_map (fun p => flat_map (ref_of_match p) (findall p t)) l = []).
    { induction l as [|p l IHl]; intros Hl; [reflexivity|]. simpl.
      unfold findall. rewrite findall_no_dot by (auto with datatypes).
      apply IHl. intros q Hq. apply Hl. right. exact Hq. }
    apply Hl, patterns_need_dot. }
  rewrite Hnil. destruct (Hset []) as [_ Hin]. revert Hin.
  generalize (py_set_list []). intros [|x xs] Hin; [reflexivity|].
  exfalso. apply (proj1 (Hin x)). left. reflexivity.
Qed.

Lemma find_references_no_dot_witness :
  has_dot "${aws_region} is not a reference" = false
  /\ find_references dedup "${aws_region} is not a reference" = [].
Proof.
  assert (H : has_dot "${aws_region} is not a reference" = false) by reflexivity.
  split; [exact H | exact (find_references_no_dot dedup _ dedup_spec H)].
Defined.

(** Every reference found is a dotted identifier whose first component is
    one of [resource], [data], [module], [var], [local], [output]; the
    cloud shorthands [aws_...], [azurerm_...], [google_...] come back
    under [resource.]. *)
Theorem find_references_prefixes py_set_list text x :
  set_list_spec py_set_list -> In x (find_references py_set_list text) ->
  exists pre rest, In pre ["resource"; "data"; "module"; "var"; "local"; "output"]
                   /\ x = (pre ++ "." ++ rest)%string.
Proof.
  intros Hset Hx. unfold find_references in Hx. apply (proj1 (proj2 (Hset _) x)) in Hx.
  apply in_flat_map in Hx. destruct Hx as [p [Hp Hx]].
  apply in_flat_map in Hx. destruct Hx as [m [_ Hx]].
  assert (Hpre : In (pat_prefix_type p) ["resource"; "data"; "module"; "var"; "local"; "output"]).
  { repeat (destruct Hp as [<-|Hp]; [simpl; tauto|]). destruct Hp. }
  destruct m as [|m0 [|m1 [|m2 ms]]]; simpl in Hx; try contradiction.
  - destruct Hx as [<-|[]]. exists (pat_prefix_type p), m0. auto.
  - destruct (String.eqb (pat_prefix_type p) "resource"
              && negb (String.prefix "resource" (pat_source p)));
      destruct Hx as [<-|[]].
    + exists "resource", (m0 ++ "." ++ m1)%string. split; [simpl; tauto | reflexivity].
    + exists (pat_prefix_type p), (m0 ++ "." ++ m1)%string. auto.
Qed.

Lemma find_references_prefixes_witness :
  set_list_spec dedup
  /\ In "resource.aws_vpc.main" (find_references dedup "${aws_vpc.main.id}")
  /\ exists pre rest, In pre ["resource"; "data"; "module"; "var"; "local"; "output"]
                      /\ "resource.aws_vpc.main" = (pre ++ "." ++ rest)%string.
Proof.
  assert (H : In "resource.aws_vpc.main" (find_references dedup "${aws_vpc.main.id}"))
    by (vm_compute; tauto).
  split; [exact dedup_spec|]. split; [exact H|].
  exact (find_references_prefixes dedup _ _ dedup_spec H).
Defined.

(** ** The [/api/parse-directory] route *)

Lemma map_directory_idempotent d :
  Api.map_directory (Api.map_directory d) = Api.map_directory d.
Proof.
  destruct (dict_get d Api.path_mappings) as [m|] eqn:Hm.
  - assert (Hmd : Api.map_directory d = m) by (unfold Api.map_directory; rewrite Hm; reflexivity).
    rewrite Hmd. unfold Api.path_mappings in Hm. cbn [dict_get] in Hm.
    destruct (String.eqb "terraform" d); [injection Hm as <-; reflexivity|].
    destruct (String.eqb "helm" d); [injection Hm as <-; reflexivity|].
    destruct (String.eqb "test" d); [injection Hm as <-; reflexivity|]. discriminate Hm.
  - destruct (String.prefix "project/" d) eqn:E.
    + assert (Hmd : Api.map_directory d = ("/app/" ++ d)%string)
        by (unfold Api.map_directory; rewrite Hm, E; reflexivity).
      rewrite Hmd. reflexivity.
    + assert (Hmd : Api.map_directory d = d)
        by (unfold Api.map_directory; rewrite Hm, E; reflexivity).
      rewrite !Hmd. reflexivity.
Qed.

Lemma api_parse_terraform_raise py_set_list hcl2_loads can_write fs dir out e :
  Api.parse_terraform py_set_list hcl2_loads can_write fs dir out = Raise e ->
  is_caught e = false.
Proof.
  destruct (parse_directory_sf py_set_list hcl2_loads fs dir) as [r [Hok H]].
  unfold Api.parse_terraform, save_to_json. rewrite (H (init_parser dir) eq_refl).
  destruct r as [ops|e']; cbn [res_bind run_ops];
    [|intros Heq; injection Heq as ->; exact Hok].
  assert (Hdir : terraform_dir (calculate_layout (apply_ops ops (init_parser dir))) = dir)
    by apply apply_ops_dir.
  rewrite (H _ Hdir). cbn [res_bind run_ops].
  destruct (mkdir_parents can_write fs [] (removelast out)) as [fs1|e1] eqn:Em;
    cbn [res_bind].
  2:{ intros Heq; injection Heq as <-. rewrite (mkdir_parents_raise _ _ _ _ _ Em). reflexivity. }
  destruct (write_text can_write fs1 out _) as [fs2|e2] eqn:Ew; cbn [res_bind];
    [discriminate|].
  intros Heq; injection Heq as <-. rewrite (write_text_raise _ _ _ _ _ Ew). reflexivity.
Qed.

Lemma existsb_is_directory_str items :
  existsb Api.is_directory_str items = true <-> In (VStr "directory") items.
Proof.
  rewrite existsb_exists. split.
  - intros [x [Hin Hx]]. destruct x; try discriminate. simpl in Hx.
    apply String.eqb_eq in Hx. subst s. exact Hin.
  - intros Hin. exists (VStr "directory"). split; [exact Hin | reflexivity].
Qed.

Ltac route_cases :=
  repeat match goal with
  | |- context [if ?b then _ else _] => destruct b
  | |- context [match Api.parse_terraform ?a ?b ?c ?d ?e ?f with _ => _ end] =>
      destruct (Api.parse_terraform a b c d e f) as [[? ?]|?]
  end.



(** For a str [directory] in a JSON object the route never raises: it
    answers 404 when the mapped path does not exist and otherwise either
    succeeds, naming the mapped path as [source], or answers 500 with an
    exception the parser itself does not catch. *)
Theorem api_route_string_directory py_set_list hcl2_loads can_write rejects_non_json
  resolve fs kvs d :
  dict_get "directory" kvs = Some (VStr d) ->
  let dir := Api.map_directory d in
  let reply := Api.parse_terraform_directory py_set_list hcl2_loads can_write
                 rejects_non_json resolve fs (Api.Json (VDict kvs)) in
  (path_exists fs (resolve dir) = false
   /\ reply = Ok (Api.ErrorReply 404 ("Directory " ++ dir ++ " does not exist")%string))
  \/ (path_exists fs (resolve dir) = true
      /\ ((exists g, reply = Ok (Api.Success g dir))
          \/ (exists e, reply = Ok (Api.Failure 500 e) /\ is_caught e = false))).
Proof.
  intros Hd dir reply. subst reply dir. unfold Api.parse_terraform_directory.
  destruct kvs as [|kv kvs]; [discriminate Hd|]. cbn [Api.py_truthy negb].
  unfold Api.contains_directory, Api.get_directory. rewrite Hd. cbn [res_bind negb].
  destruct (path_exists fs (resolve (Api.map_directory d))); simpl; [right | left; auto].
  split; [reflexivity|].
  destruct (Api.parse_terraform py_set_list hcl2_loads can_write fs
              (resolve (Api.map_directory d)) (resolve "work/build/tf_entities.json"))
    as [[p r]|e] eqn:E.
  - left. exists r. reflexivity.
  - right. exists e. split; [reflexivity|]. exact (api_parse_terraform_raise _ _ _ _ _ _ _ E).
Qed.

Lemma api_route_string_directory_witness :
  dict_get "directory" [("directory", VStr "terraform")] = Some (VStr "terraform")
  /\ exists g,
       Api.parse_terraform_directory dedup sample_loads all_writable true sample_resolve
         sample_fs (Api.Json (VDict [("directory", VStr "terraform")]))
       = Ok (Api.Success g "/app/project/terraform").
Proof.
  assert (Hd : dict_get "directory" [("directory", VStr "terraform")] = Some (VStr "terraform"))
    by reflexivity.
  split; [exact Hd|].
  destruct (api_route_string_directory dedup sample_loads all_writable true sample_resolve
              sample_fs _ _ Hd)
    as [[Hex _]|[_ [Hs|[e [He _]]]]].
  - vm_compute in Hex. discriminate Hex.
  - exact Hs.
  - vm_compute in He. discriminate He.
Defined.

(** The route raises (an unhandled error, outside its [try]) exactly when
    the body is a truthy JSON value that is not an object with a str
    [directory] and gets past the key test: [TypeError] for [in] on a
    number or a boolean, for indexing a list holding the string "directory"
    or a str containing it, and for a list or object [directory];
    [AttributeError] for a number, boolean or null [directory]. *)
Theorem api_route_raises_iff py_set_list hcl2_loads can_write rejects_non_json resolve fs
  req e :
  Api.parse_terraform_directory py_set_list hcl2_loads can_write rejects_non_json
    resolve fs req = Raise e
  <-> exists v, req = Api.Json v /\ Api.py_truthy v = true
      /\ match v with
         | VNum _ | VBool _ => e = TypeError
         | VList items => In (VStr "directory") items /\ e = TypeError
         | VStr s => str_contains "directory" s = true /\ e = TypeError
         | VDict kvs =>
             exists dv, dict_get "directory" kvs = Some dv /\ (forall s, dv <> VStr s)
               /\ e = match dv with VList _ | VDict _ => TypeError | _ => AttributeError end
         | VNone => False
         end.
Proof.
  unfold Api.parse_terraform_directory, Api.no_directory.
  destruct req as [| |v].
  - split; [destruct rejects_non_json; discriminate | intros [v [H _]]; discriminate H].
  - split; [discriminate | intros [v [H _]]; discriminate H].
  - destruct (Api.py_truthy v) eqn:Ht; cbn [negb].
    2:{ split; [discriminate | intros [v' [H [Ht' _]]]; injection H as <-; congruence]. }
    destruct v as [s|n|b| |kvs|items]; unfold Api.contains_directory, Api.get_directory;
      cbn [res_bind].
    + destruct (str_contains "directory" s) eqn:Hs; cbn [negb res_bind].
      * split; [intros H; injection H as <-; eauto|].
        intros [v [H [_ Hm]]]. injection H as <-. cbv beta iota in Hm.
        destruct Hm as [_ ->]. reflexivity.
      * split; [discriminate|]. intros [v [H [_ Hm]]]. injection H as <-. cbv beta iota in Hm.
        destruct Hm as [Hs' _]. congruence.
    + split; [intros H; injection H as <-; eauto|].
      intros [v [H [_ Hm]]]. injection H as <-. cbv beta iota in Hm.
      rewrite Hm. reflexivity.
    + split; [intros H; injection H as <-; eauto|].
      intros [v [H [_ Hm]]]. injection H as <-. cbv beta iota in Hm.
      rewrite Hm. reflexivity.
    + discriminate Ht.
    + destruct (dict_get "directory" kvs) as [dv|] eqn:Hd; cbn [negb res_bind].
      * split.
        -- intros H. exists (VDict kvs). split; [reflexivity|]. split; [exact Ht|].
           exists dv. split; [exact Hd|].
           revert H. destruct dv; cbv zeta; route_cases; try discriminate;
             intros H; injection H as <-; (split; [intros s'; discriminate | reflexivity]).
        -- intros [v [H [_ Hm]]]. injection H as <-. cbv beta iota in Hm.
           destruct Hm as [dv' [Hd' [Hs He]]].
           rewrite Hd in Hd'. injection Hd' as <-. rewrite He.
           destruct dv; try reflexivity. exfalso. exact (Hs s eq_refl).
      * split; [discriminate|]. intros [v [H [_ Hm]]]. injection H as <-. cbv beta iota in Hm.
        destruct Hm as [dv' [Hd' _]].
        congruence.
    + destruct (existsb Api.is_directory_str items) eqn:Hi; cbn [negb res_bind].
      * apply existsb_is_directory_str in Hi.
        split; [intros H; injection H as <-; eauto|].
        intros [v [H [_ Hm]]]. injection H as <-. cbv beta iota in Hm.
        destruct Hm as [_ ->]. reflexivity.
      * split; [discriminate|]. intros [v [H [_ Hm]]]. injection H as <-. cbv beta iota in Hm.
        destruct Hm as [Hin _].
        apply existsb_is_directory_str in Hin. congruence.
Qed.

(** Sending the mapped path instead of the alias or the relative path gives
    the same reply: the path mapping of the route is idempotent. *)
Theorem api_route_mapped_path_same py_set_list hcl2_loads can_write rejects_non_json
  resolve fs kvs d :
  dict_get "directory" kvs = Some (VStr d) ->
  Api.parse_terraform_directory py_set_list hcl2_loads can_write rejects_non_json resolve fs
    (Api.Json (VDict [("directory", VStr (Api.map_directory d))]))
  = Api.parse_terraform_directory py_set_list hcl2_loads can_write rejects_non_json resolve fs
      (Api.Json (VDict kvs)).
Proof.
  intros Hd. unfold Api.parse_terraform_directory.
  destruct kvs as [|kv kvs]; [discriminate Hd|]. cbn [Api.py_truthy negb].
  unfold Api.contains_directory, Api.get_directory. rewrite Hd.
  simpl dict_get. cbv iota beta. cbn [res_bind negb].
  rewrite map_directory_idempotent. reflexivity.
Qed.

Lemma api_route_mapped_path_same_witness :
  dict_get "directory" [("directory", VStr "project/terraform")]
    = Some (VStr "project/terraform")
  /\ Api.parse_terraform_directory dedup sample_loads all_writable true sample_resolve
       sample_fs (Api.Json (VDict [("directory", VStr "/app/project/terraform")]))
     = Api.parse_terraform_directory dedup sample_loads all_writable true sample_resolve
         sample_fs (Api.Json (VDict [("directory", VStr "project/terraform")])).
Proof.
  assert (Hd : dict_get "directory" [("directory", VStr "project/terraform")]
               = Some (VStr "project/terraform")) by reflexivity.
  split; [exact Hd|].
  exact (api_route_mapped_path_same dedup sample_loads all_writable true sample_resolve
           sample_fs _ _ Hd).
Defined.
